(** * The LangGraph task agent: session routing, tools, result extraction

    A shallow embedding of [src/agents/langgraph_task_agent.py].

    Python values are an inductive type, exceptions are explicit results,
    and the orchestrator is a state-passing function over the fields of
    [LangGraphTaskAgent] and the external collaborators it calls. *)

From Stdlib Require Import ZArith Ascii String List DecimalString DecimalNat.
From stdpp Require Import base option list gmap strings.

Set Warnings "-register-all".
Local Open Scope string_scope.
Local Open Scope list_scope.

(** ** Python values *)

(** The values that travel through the agent result: JSON-like data and
    attribute-bearing objects (LangChain's message classes).  A [dict] is an
    association list in insertion order, keys being strings; a lookup finds
    the first binding of the key. *)
Inductive PyVal :=
| PyNone
| PyBool (b : bool)
| PyInt (z : Z)
| PyStr (s : string)
| PyList (l : list PyVal)
| PyTuple (l : list PyVal)
| PyDict (d : list (string * PyVal))
| PyObj (cls : string) (attrs : list (string * PyVal)).

Fixpoint assoc {A : Type} (k : string) (d : list (string * A)) : option A :=
  match d with
  | [] => None
  | (k', v) :: d' => if String.eqb k' k then Some v else assoc k d'
  end.

(** [bool(v)]: the truth value Python's [if], [not], [or] and [and] use. *)
Definition truthy (v : PyVal) : bool :=
  match v with
  | PyNone => false
  | PyBool b => b
  | PyInt z => negb (Z.eqb z 0)
  | PyStr s => negb (String.eqb s "")
  | PyList l | PyTuple l => negb (Nat.eqb (length l) 0)
  | PyDict d => negb (Nat.eqb (length d) 0)
  | PyObj _ _ => true
  end.

(** [a or b] *)
Definition py_or (a b : PyVal) : PyVal := if truthy a then a else b.

(** [isinstance(v, dict)] *)
Definition isinstance_dict (v : PyVal) : bool :=
  match v with PyDict _ => true | _ => false end.

(** [getattr(v, name, None)] for a name that no built-in type defines
    (the source asks for ["content"] and ["type"] only). *)
Definition getattr_or_None (v : PyVal) (name : string) : PyVal :=
  match v with
  | PyObj _ attrs => default PyNone (assoc name attrs)
  | _ => PyNone
  end.

(** [d.get(key, dflt)] on a dict; [PyNone] stands in for the other values,
    on which the source never calls it. *)
Definition dict_get (v : PyVal) (key : string) (dflt : PyVal) : PyVal :=
  match v with
  | PyDict d => default dflt (assoc key d)
  | _ => PyNone
  end.

(** [v == s] for a string literal [s] *)
Definition eq_str (v : PyVal) (s : string) : bool :=
  match v with PyStr s' => String.eqb s' s | _ => false end.

Definition type_name (v : PyVal) : string :=
  match v with
  | PyNone => "NoneType"
  | PyBool _ => "bool"
  | PyInt _ => "int"
  | PyStr _ => "str"
  | PyList _ => "list"
  | PyTuple _ => "tuple"
  | PyDict _ => "dict"
  | PyObj cls _ => cls
  end.

(** ** Exceptions *)

(** A raised exception: either an instance of [Exception] (the classes an
    [except Exception] clause catches) or an instance of [BaseException]
    only ([KeyboardInterrupt], [SystemExit], [asyncio.CancelledError]). *)
Inductive PyExn :=
| Exn (cls msg : string)
| BaseExn (cls msg : string).

Definition isinstance_Exception (e : PyExn) : bool :=
  match e with Exn _ _ => true | BaseExn _ _ => false end.

(** [str(e)] *)
Definition exn_str (e : PyExn) : string :=
  match e with Exn _ msg | BaseExn _ msg => msg end.

Inductive Result (A : Type) :=
| Ok (a : A)
| Raise (e : PyExn).
Arguments Ok {A} a.
Arguments Raise {A} e.

#[global] Instance Result_ret : MRet Result := fun _ a => Ok a.
#[global] Instance Result_bind : MBind Result := fun _ _ f m =>
  match m with Ok a => f a | Raise e => Raise e end.

(** [try: body / except Exception as e: handler e] *)
Definition try_except_Exception {A : Type}
    (body : Result A) (handler : PyExn -> Result A) : Result A :=
  match body with
  | Ok a => Ok a
  | Raise e => if isinstance_Exception e then handler e else Raise e
  end.

(** ** Result extractor *)

Module Extractor.

Definition fallback_text : string :=
"I apologize, but I couldn't process your request.".

(** [reversed(v)]: sequences are reversed, a dict yields its keys last to
  first, a string its characters; the rest is not reversible. *)
Definition reversed (v : PyVal) : Result (list PyVal) :=
match v with
| PyList l | PyTuple l => Ok (rev l)
| PyDict d => Ok (rev (map (fun kv => PyStr (fst kv)) d))
| PyStr s =>
    Ok (rev (map (fun c => PyStr (String c EmptyString)) (list_ascii_of_string s)))
| _ => Raise (Exn "TypeError" ("'" +:+ type_name v +:+ "' object is not reversible"))
end.

(** [getattr(msg, "content", None) or (msg.get("content") if isinstance(msg, dict) else None)] *)
Definition msg_content (msg : PyVal) : PyVal :=
py_or (getattr_or_None msg "content")
      (if isinstance_dict msg then dict_get msg "content" PyNone else PyNone).

(** [getattr(msg, "type", None) or (msg.get("type") if isinstance(msg, dict) else None)] *)
Definition msg_type (msg : PyVal) : PyVal :=
py_or (getattr_or_None msg "type")
      (if isinstance_dict msg then dict_get msg "type" PyNone else PyNone).

(** [mtype in ("ai", "assistant") and content] *)
Definition is_reply (msg : PyVal) : bool :=
(eq_str (msg_type msg) "ai" || eq_str (msg_type msg) "assistant")
&& truthy (msg_content msg).

(** The [for msg in ...] loop: [Some content] when the loop returns from
  inside, [None] when it runs to its end. *)
Fixpoint scan (msgs : list PyVal) : option PyVal :=
match msgs with
| [] => None
| msg :: rest =>
    let content := msg_content msg in
    let mtype := msg_type msg in
    if (eq_str mtype "ai" || eq_str mtype "assistant") && truthy content
    then Some content
    else scan rest
end.

(** The [try] block: [Ok (Some c)] is a [return c] from inside the loop. *)
Definition extract_body (result : PyVal) : Result (option PyVal) :=
let messages :=
  if isinstance_dict result then dict_get result "messages" (PyList []) else PyList [] in
msgs ← reversed messages;
mret (scan msgs).

(** What the function returns; the record its [except] clause writes to
    the log is [extract_log]. *)
Definition _extract_assistant_text (result : PyVal) : Result PyVal :=
r ← try_except_Exception (extract_body result)
      (fun _ => (* logger.exception(...) *) mret None);
match r with
| Some content => mret content
| None => mret (PyStr fallback_text)
end.

(** Line 157: the records the function writes to the log, one when the
    [except] clause runs. *)
Definition extract_log (result : PyVal) : list string :=
match extract_body result with
| Ok _ => []
| Raise e =>
    if isinstance_Exception e
    then ["Failed to extract assistant text from result"]
    else []
end.

(** *** What the extractor is specified against *)

(** The items of an iterable value, first to last; [None] for a value that
  cannot be iterated. *)
Definition sequence_of (v : PyVal) : option (list PyVal) :=
match v with
| PyList l | PyTuple l => Some l
| PyDict d => Some (map (fun kv => PyStr (fst kv)) d)
| PyStr s => Some (map (fun c => PyStr (String c EmptyString)) (list_ascii_of_string s))
| PyNone | PyBool _ | PyInt _ | PyObj _ _ => None
end.

(** The transcript of a result, oldest message first: what the record holds
  under ["messages"], nothing when the result is not a record or has no
  such entry, [None] when the entry is not a sequence. *)
Definition transcript (result : PyVal) : option (list PyVal) :=
match result with
| PyDict d =>
    match assoc "messages" d with
    | Some v => sequence_of v
    | None => Some []
    end
| _ => Some []
end.

(** The message carries the field [name], as an attribute or as a key. *)
Definition has_field (name : string) (msg : PyVal) : bool :=
match msg with
| PyObj _ attrs => bool_decide (is_Some (assoc name attrs))
| PyDict d => bool_decide (is_Some (assoc name d))
| _ => false
end.

(** The value a message holds in the field [name], as an attribute or as
    a key. *)
Definition field (name : string) (msg : PyVal) : option PyVal :=
match msg with
| PyObj _ attrs => assoc name attrs
| PyDict d => assoc name d
| _ => None
end.

(** The tags of assistant-authored messages. *)
Definition assistant_tag (v : PyVal) : Prop :=
v = PyStr "ai" \/ v = PyStr "assistant".

(** The message carries an assistant tag in the field [key]. *)
Definition assistant_authored_by (key : string) (msg : PyVal) : Prop :=
exists v, field key msg = Some v /\ assistant_tag v.

(** Content that is not empty: not [None], [False], [0], the empty string,
    nor an empty list, tuple or dict. *)
Inductive NonEmpty : PyVal -> Prop :=
| NonEmpty_bool : NonEmpty (PyBool true)
| NonEmpty_int z : z <> 0%Z -> NonEmpty (PyInt z)
| NonEmpty_str s : s <> EmptyString -> NonEmpty (PyStr s)
| NonEmpty_list x l : NonEmpty (PyList (x :: l))
| NonEmpty_tuple x l : NonEmpty (PyTuple (x :: l))
| NonEmpty_dict kv d : NonEmpty (PyDict (kv :: d))
| NonEmpty_obj cls attrs : NonEmpty (PyObj cls attrs).

(** The message is assistant-authored, by its tag in the field [key], and
    has content that is not empty. *)
Definition reply_tagged_by (key : string) (msg : PyVal) : Prop :=
assistant_authored_by key msg
/\ exists c, field "content" msg = Some c /\ NonEmpty c.

(** The result record whose transcript is [msgs]. *)
Definition result_of (msgs : list PyVal) : PyVal :=
PyDict [("messages", PyList msgs)].

End Extractor.

(** ** State and exceptions together *)

(** A computation over a mutable state [S] that returns or raises; the state
    it leaves behind is kept in both cases (Python does not roll back). *)
Definition StErr (S A : Type) : Type := S -> Result A * S.

#[global] Instance StErr_ret {S} : MRet (StErr S) := fun _ a s => (Ok a, s).
#[global] Instance StErr_bind {S} : MBind (StErr S) := fun _ _ f m s =>
  match m s with
  | (Ok a, s') => f a s'
  | (Raise e, s') => (Raise e, s')
  end.

(** ** String formatting *)

(** The double quote character, for the f-strings that contain one. *)
Definition dquote : string := String "034"%char EmptyString.

(** The newline of ['\n'.join(...)]. *)
Definition newline : string := String "010"%char EmptyString.

(** [f"{n}"] for an [int]. *)
Definition str_int (n : Z) : string := NilZero.string_of_int (Z.to_int n).

(** [sep.join(parts)] *)
Fixpoint join (sep : string) (parts : list string) : string :=
  match parts with
  | [] => ""
  | [p] => p
  | p :: rest => p +:+ sep +:+ join sep rest
  end.

(** [text.split("\n")]: the lines of a text. *)
Fixpoint split_lines (text : string) : list string :=
  match text with
  | EmptyString => [EmptyString]
  | String c rest =>
      if Ascii.eqb c "010"%char then EmptyString :: split_lines rest
      else match split_lines rest with
           | line :: lines => String c line :: lines
           | [] => [String c EmptyString]
           end
  end.

(** ["\n" in text] *)
Fixpoint has_newline (text : string) : bool :=
  match text with
  | EmptyString => false
  | String c rest => Ascii.eqb c "010"%char || has_newline rest
  end.

(** ** Time utility *)

(** The standard library behind [get_time_func]: the system's timezone
    database and the clock.  [ZoneInfo key] is the zone, or the class and
    message of the exception the constructor raises; these are
    [ZoneInfoNotFoundError], [ValueError] and [OSError], which all derive
    from [Exception].  [strftime_now t tz fmt] is
    [datetime.now(tz).strftime(fmt)] when the clock reads the instant [t]
    (seconds since the epoch). *)
Class TimeLib := {
  tzinfo : Type;
  ZoneInfo : string -> tzinfo + string * string;
  strftime_now : Z -> tzinfo -> string -> string
}.

Module TimeUtility.
Section GetTime.
Context `{TimeLib}.

Definition time_format : string := "%Y-%m-%d %H:%M:%S %Z%z".

Definition call_ZoneInfo (key : string) : Result tzinfo :=
match ZoneInfo key with
| inl tz => Ok tz
| inr (cls, msg) => Raise (Exn cls msg)
end.

(** [clock] is the instant at which the call reads the time. *)
Definition get_time_func (clock : Z) (timezone : string) : Result string :=
try_except_Exception
  (tz ← call_ZoneInfo timezone;
   mret (strftime_now clock tz time_format))
  (fun e => mret ("Failed to get time for " +:+ timezone +:+ ": " +:+ exn_str e)).

(** The [getTime] tool: [return get_time_func(timezone)]. *)
Definition get_time (clock : Z) (timezone : string) : Result string :=
get_time_func clock timezone.
End GetTime.

(** A small timezone database and clock, to run the utility on examples:
  two fixed-offset zones, and the proleptic Gregorian calendar. *)
Module Zones.

Record zone := { abbreviation : string; offset_minutes : Z }.

Definition zones : list (string * zone) :=
[ ("UTC", {| abbreviation := "UTC"; offset_minutes := 0 |});
  ("Asia/Kolkata", {| abbreviation := "IST"; offset_minutes := 330 |}) ].

Definition lookup_zone (key : string) : zone + string * string :=
match assoc key zones with
| Some z => inl z
| None => inr ("ZoneInfoNotFoundError",
               "'No time zone found with key " +:+ key +:+ "'")
end.

Definition pad2 (n : Z) : string :=
if (n <? 10)%Z then "0" +:+ str_int n else str_int n.

Definition pad4 (n : Z) : string :=
if (n <? 10)%Z then "000" +:+ str_int n
else if (n <? 100)%Z then "00" +:+ str_int n
else if (n <? 1000)%Z then "0" +:+ str_int n
else str_int n.

(** Year, month and day of the day numbered [z] from 1970-01-01. *)
Definition civil_from_days (z : Z) : Z * Z * Z :=
let z := (z + 719468)%Z in
let era := (z / 146097)%Z in
let doe := (z - era * 146097)%Z in
let yoe := ((doe - doe / 1460 + doe / 36524 - doe / 146096) / 365)%Z in
let doy := (doe - (365 * yoe + yoe / 4 - yoe / 100))%Z in
let mp := ((5 * doy + 2) / 153)%Z in
let d := (doy - (153 * mp + 2) / 5 + 1)%Z in
let m := (if mp <? 10 then mp + 3 else mp - 9)%Z in
let y := (yoe + era * 400)%Z in
((if m <=? 2 then y + 1 else y)%Z, m, d).

(** The one format the source uses; [fmt] is otherwise ignored. *)
Definition format_now (t : Z) (tz : zone) (fmt : string) : string :=
let off := offset_minutes tz in
let local := (t + 60 * off)%Z in
let '(y, m, d) := civil_from_days (local / 86400) in
let s := (local mod 86400)%Z in
pad4 y +:+ "-" +:+ pad2 m +:+ "-" +:+ pad2 d +:+ " "
  +:+ pad2 (s / 3600) +:+ ":" +:+ pad2 (s mod 3600 / 60) +:+ ":" +:+ pad2 (s mod 60)
  +:+ " " +:+ abbreviation tz
  +:+ (if (off <? 0)%Z then "-" else "+")
  +:+ pad2 (Z.abs off / 60) +:+ pad2 (Z.abs off mod 60).

Definition lib : TimeLib :=
{| tzinfo := zone; ZoneInfo := lookup_zone; strftime_now := format_now |}.

End Zones.
End TimeUtility.

(** ** Task store *)

Module TaskStore.

(** Modelled from the spec: the [Task] record of [src/models], which is
    not among the sources: [Task{id, title, isComplete}]. *)
Record Task := { id : Z; title : string; isComplete : bool }.

(** Modelled from the spec: the [TaskService] of [src/services], which is
    not among the sources.  Its contract: identifiers are stable integers,
    uniquely assigned; an absent task or [False] signals not-found, never
    an error.  The store is the sequence of its tasks and the next
    identifier to hand out. *)
Record TaskService := { tasks : list Task; next_id : Z }.

Definition empty : TaskService := {| tasks := []; next_id := 1 |}.

Definition has_id (i : Z) (t : Task) : bool := Z.eqb (id t) i.

(** Modelled from the spec: [addTask(title, isComplete) -> Task]. *)
Definition add_task (ttl : string) (done : bool) : StErr TaskService Task :=
  fun s =>
    let t := {| id := next_id s; title := ttl; isComplete := done |} in
    (Ok t, {| tasks := tasks s ++ [t]; next_id := (next_id s + 1)%Z |}).

(** Modelled from the spec: [getAllTasks() -> sequence of Task]. *)
Definition get_all_tasks : StErr TaskService (list Task) :=
  fun s => (Ok (tasks s), s).

(** Modelled from the spec: [getTaskById(id) -> Task or absent]. *)
Definition get_task_by_id (i : Z) : StErr TaskService (option Task) :=
  fun s => (Ok (List.find (has_id i) (tasks s)), s).

Definition amend (ttl : option string) (done : option bool) (t : Task) : Task :=
  {| id := id t;
     title := default (title t) ttl;
     isComplete := default (isComplete t) done |}.

(** Modelled from the spec: [updateTask(id, title?, isComplete?) -> Task or
    absent]; fields omitted are left unchanged. *)
Definition update_task (i : Z) (ttl : option string) (done : option bool)
    : StErr TaskService (option Task) :=
  fun s =>
    match List.find (has_id i) (tasks s) with
    | None => (Ok None, s)
    | Some t =>
        let t' := amend ttl done t in
        (Ok (Some t'),
         {| tasks := map (fun u => if has_id i u then t' else u) (tasks s);
            next_id := next_id s |})
    end.

(** Modelled from the spec: [deleteTask(id) -> boolean]. *)
Definition delete_task (i : Z) : StErr TaskService bool :=
  fun s =>
    if existsb (has_id i) (tasks s)
    then (Ok true,
          {| tasks := List.filter (fun u => negb (has_id i u)) (tasks s);
             next_id := next_id s |})
    else (Ok false, s).

(** The identifier [i] names no task of the store. *)
Definition absent (i : Z) (s : TaskService) : Prop :=
  Forall (fun t => id t <> i) (tasks s).

End TaskStore.

(** ** Tool catalog *)

Module Tools.
Import TaskStore.

(** ["Complete" if t.isComplete else "Incomplete"] *)
Definition status_text (t : Task) : string :=
  if isComplete t then "Complete" else "Incomplete".

(** [createTask] *)
Definition create_task (ttl : string) (done : bool) : StErr TaskService string :=
  task ← add_task ttl done;
  mret ("Task created successfully: " +:+ dquote +:+ title task +:+ dquote
          +:+ " (ID: " +:+ str_int (id task) +:+ ")").

(** [getTasks] *)
Definition get_tasks : StErr TaskService string :=
  tasks ← get_all_tasks;
  match tasks with
  | [] => mret "No tasks found."
  | _ =>
      let task_list :=
        join newline
          (map (fun t => "- " +:+ str_int (id t) +:+ ": " +:+ title t
                           +:+ " (" +:+ status_text t +:+ ")") tasks) in
      mret ("Found " +:+ str_int (Z.of_nat (length tasks)) +:+ " tasks:"
              +:+ newline +:+ task_list)
  end.

(** [getTask] *)
Definition get_task (i : Z) : StErr TaskService string :=
  task ← get_task_by_id i;
  match task with
  | None => mret ("Task with ID " +:+ str_int i +:+ " not found.")
  | Some task =>
      let status := status_text task in
      mret ("Task " +:+ str_int (id task) +:+ ": " +:+ dquote +:+ title task
              +:+ dquote +:+ " - Status: " +:+ status)
  end.

(** [updateTask] *)
Definition update_task (i : Z) (ttl : option string) (done : option bool)
    : StErr TaskService string :=
  updated ← TaskStore.update_task i ttl done;
  match updated with
  | None => mret ("Task with ID " +:+ str_int i +:+ " not found.")
  | Some _ => mret ("Task " +:+ str_int i +:+ " updated successfully.")
  end.

(** [deleteTask] *)
Definition delete_task (i : Z) : StErr TaskService string :=
  deleted ← TaskStore.delete_task i;
  if deleted : bool
  then mret ("Task " +:+ str_int i +:+ " deleted successfully.")
  else mret ("Task with ID " +:+ str_int i +:+ " not found.").

(** The line of [getTasks] for one task. *)
Definition task_line (t : Task) : string :=
  "- " +:+ str_int (id t) +:+ ": " +:+ title t +:+ " (" +:+ status_text t +:+ ")".

End Tools.

(** [try: body / except Exception as e: handler e], over a state. *)
Definition try_except_st {S A : Type}
    (body : StErr S A) (handler : PyExn -> StErr S A) : StErr S A :=
  fun s =>
    match body s with
    | (Ok a, s') => (Ok a, s')
    | (Raise e, s') =>
        if isinstance_Exception e then handler e s' else (Raise e, s')
    end.

(** A computation that does not touch the state. *)
Definition lift {S A : Type} (r : Result A) : StErr S A := fun s => (r, s).

(** [bool(o)] for an [Optional[str]]: [None] and [""] are false. *)
Definition opt_truthy (o : option string) : bool :=
  match o with
  | Some s => negb (String.eqb s "")
  | None => false
  end.

(** ** Agent orchestrator *)

Module Orchestrator.

(** Modelled from the spec: the [Role] enumeration of [src/models], which
    is not among the sources; the reply's role tag is ["assistant"]. *)
Inductive Role := USER | ASSISTANT.

Definition Role_value (r : Role) : string :=
  match r with USER => "user" | ASSISTANT => "assistant" end.

(** Modelled from the spec: the [ChatMessage] model of [src/models], which
    is not among the sources: a role tag and text content. *)
Record ChatMessage := { role : Role; content : string }.

(** Modelled from the spec: [ChatMessage(role=..., content=...)]; content
    is text, anything else is refused by the model's validation. *)
Definition new_ChatMessage (r : Role) (c : PyVal) : Result ChatMessage :=
  match c with
  | PyStr s => Ok {| role := r; content := s |}
  | _ => Raise (Exn "ValidationError" "content: Input should be a valid string")
  end.

Definition not_configured_text : string :=
  "LangGraph agent is not properly configured. Please check your Azure OpenAI settings.".

Definition failure_text : string :=
  "I apologize, but I encountered an error processing your request.".

(** The two fixed replies. *)
Definition not_configured_reply : ChatMessage :=
  {| role := ASSISTANT; content := not_configured_text |}.

Definition failure_reply : ChatMessage :=
  {| role := ASSISTANT; content := failure_text |}.

(** What the process does that is not a field of the agent, in order;
    kept to state which effects a call has. *)
Inductive Event :=
| EvUuid4 (token : string)
| EvStore (session_id thread_id : string)
| EvInvoke (message thread_id : string)
| EvLog (text : string).

(** The engine calls of a trace, oldest first: message and thread
    identifier of each. *)
Fixpoint invocations (tr : list Event) : list (string * string) :=
  match tr with
  | [] => []
  | EvInvoke message thread_id :: tr' => (message, thread_id) :: invocations tr'
  | _ :: tr' => invocations tr'
  end.

Section Agent.
(** The state of the reasoning engine: the checkpointer's memory, the
    task store the tools write to, the model provider. *)
Context {E : Type}.

(** The compiled ReAct agent: [ainvoke] runs the reasoning loop to its
    end on a message and a thread identifier, and returns the result
    structure or raises. *)
Record CompiledAgent := {
  ainvoke : string -> string -> E -> Result PyVal * E
}.

(** The fields of [self].  [task_service] and [memory] are references
    fixed at construction to objects that live in the engine state. *)
Record LangGraphTaskAgent := {
  llm : option (string * string);
  agent : option CompiledAgent;
  session_ids : gmap string string;
  session_locks : gmap string unit
}.

(** The agent object and the part of the process it acts on: the number
    of identifiers drawn from [uuid.uuid4()] so far, the state of the
    engine, and the effects so far, oldest first. *)
Record World := {
  self : LangGraphTaskAgent;
  draws : nat;
  engine : E;
  trace : list Event
}.

Definition set_self (f : LangGraphTaskAgent -> LangGraphTaskAgent) (w : World) : World :=
  {| self := f (self w); draws := draws w; engine := engine w; trace := trace w |}.

Definition emit (ev : Event) (w : World) : World :=
  {| self := self w; draws := draws w; engine := engine w;
     trace := trace w ++ [ev] |}.

Definition set_llm (l : string * string) (a : LangGraphTaskAgent) : LangGraphTaskAgent :=
  {| llm := Some l; agent := agent a;
     session_ids := session_ids a; session_locks := session_locks a |}.

Definition set_agent (g : CompiledAgent) (a : LangGraphTaskAgent) : LangGraphTaskAgent :=
  {| llm := llm a; agent := Some g;
     session_ids := session_ids a; session_locks := session_locks a |}.

(** [self.session_ids[session_id] = thread_id] *)
Definition set_session (session_id thread_id : string)
    (a : LangGraphTaskAgent) : LangGraphTaskAgent :=
  {| llm := llm a; agent := agent a;
     session_ids := <[session_id := thread_id]> (session_ids a);
     session_locks := session_locks a |}.

(** [logger.warning], [logger.info], [logger.exception] *)
Definition log (text : string) : StErr World unit :=
  fun w => (Ok tt, emit (EvLog text) w).

(** *** Construction *)

Definition blank (e0 : E) : World :=
  {| self := {| llm := None; agent := None;
                session_ids := ∅; session_locks := ∅ |};
     draws := 0; engine := e0; trace := [] |}.

(** [__init__]: [getenv] is the process environment,
    [AzureChatOpenAI endpoint deployment] builds the credential, the
    token provider and the client, [create_react_agent] compiles the
    agent over the client, the six tools and the checkpointer. *)
Definition init_body
    (getenv : string -> option string)
    (AzureChatOpenAI : string -> string -> Result (string * string))
    (create_react_agent : string * string -> Result CompiledAgent)
    : StErr World unit :=
  let endpoint := getenv "AZURE_OPENAI_ENDPOINT" in
  let deployment_name := getenv "AZURE_OPENAI_DEPLOYMENT_NAME" in
  if negb (opt_truthy endpoint) || negb (opt_truthy deployment_name)
  then log "Azure OpenAI configuration missing for LangGraph agent"
  else
    try_except_st
      (client ← lift (AzureChatOpenAI (default "" endpoint) (default "" deployment_name));
       _ ← (fun w => (Ok tt, set_self (set_llm client) w));
       g ← lift (create_react_agent client);
       _ ← (fun w => (Ok tt, set_self (set_agent g) w));
       log "LangGraph Task Agent initialized successfully")
      (fun _ => log "Failed to initialize LangGraph agent").

Definition __init__ getenv AzureChatOpenAI create_react_agent (e0 : E)
    : Result unit * World :=
  init_body getenv AzureChatOpenAI create_react_agent (blank e0).

(** *** One conversation turn *)

Section Turn.
(** [uuid4 n] is the string of the [n]-th identifier the process
    draws from [uuid.uuid4()]. *)
Context (uuid4 : nat -> string).

(** [str(uuid.uuid4())] *)
Definition draw_uuid4 : StErr World string :=
  fun w =>
    let token := uuid4 (draws w) in
    (Ok token,
     {| self := self w; draws := S (draws w); engine := engine w;
        trace := trace w ++ [EvUuid4 token] |}).

Definition store_session (session_id thread_id : string) : StErr World unit :=
  fun w =>
    (Ok tt, emit (EvStore session_id thread_id)
              (set_self (set_session session_id thread_id) w)).

(** Lines 209 to 215 of the source, the session router. *)
Definition resolve_thread (session_id : option string) : StErr World string :=
  match session_id with
  | Some sid =>
      if opt_truthy session_id then
        fun w =>
          let thread_id := session_ids (self w) !! sid in
          if negb (opt_truthy thread_id) then
            (thread_id ← draw_uuid4;
             _ ← store_session sid thread_id;
             mret thread_id) w
          else (Ok (default "" thread_id), w)
      else draw_uuid4
  | None => draw_uuid4
  end.

(** [await self.agent.ainvoke({"messages": [("user", message)]}, config=config)] *)
Definition call_ainvoke (g : CompiledAgent) (message thread_id : string)
    : StErr World PyVal :=
  fun w =>
    let '(r, e') := ainvoke g message thread_id (engine w) in
    (r, {| self := self w; draws := draws w; engine := e';
           trace := trace w ++ [EvInvoke message thread_id] |}).

(** The records [texts] written to the log, in order. *)
Definition log_all (texts : list string) : StErr World unit :=
  fun w => (Ok tt, fold_left (fun w' text => emit (EvLog text) w') texts w).

(** Lines 226 to 232: from the engine's result to the reply; the call of
    [_extract_assistant_text] writes its records to the log. *)
Definition finish_turn (result : PyVal) : StErr World ChatMessage :=
  _ ← log_all (Extractor.extract_log result);
  response_content ← lift (Extractor._extract_assistant_text result);
  lift (new_ChatMessage ASSISTANT response_content).

(** Lines 234 to 239: the [except Exception] clause. *)
Definition on_error (e : PyExn) : StErr World ChatMessage :=
  _ ← log "Error processing message with LangGraph agent";
  lift (new_ChatMessage ASSISTANT (PyStr failure_text)).

Definition process_message (message : string) (session_id : option string)
    : StErr World ChatMessage :=
  fun w =>
    match agent (self w) with
    | None => (new_ChatMessage ASSISTANT (PyStr not_configured_text), w)
    | Some g =>
        try_except_st
          (thread_id ← resolve_thread session_id;
           result ← call_ainvoke g message thread_id;
           finish_turn result)
          on_error
          w
    end.

(** One call of [process_message], with any message and session. *)
Definition turn (w w' : World) : Prop :=
  exists message session_id, snd (process_message message session_id w) = w'.

(** One thread resolution, with any session. *)
Definition resolution (w w' : World) : Prop :=
  exists session_id, snd (resolve_thread session_id w) = w'.

(** What the process does to the agent during its life: turns, and
    thread resolutions on their own. *)
Definition step (w w' : World) : Prop := turn w w' \/ resolution w w'.

(** Every mapped thread identifier was drawn earlier, and no two
    sessions are mapped to the same one. *)
Definition sessions_ok (w : World) : Prop :=
  (forall s t, session_ids (self w) !! s = Some t ->
               exists n, n < draws w /\ t = uuid4 n)
  /\ (forall s1 s2 t, session_ids (self w) !! s1 = Some t ->
                      session_ids (self w) !! s2 = Some t -> s1 = s2).

End Turn.
End Agent.

Arguments CompiledAgent : clear implicits.
Arguments LangGraphTaskAgent : clear implicits.
Arguments World : clear implicits.

End Orchestrator.

(** ** Overlapping turns *)

(** [process_message] is a coroutine with a single [await], the engine call
    of line 221.  The coroutines of one asyncio event loop run on one
    thread and give up control only at an [await], so a turn runs in two
    uninterrupted parts: from the call to the [await], and from the [await]
    to the [return].  Overlapping requests interleave these parts. *)
Module EventLoop.
Import Orchestrator.

Section Loop.
Context {E : Type} (uuid4 : nat -> string).

(** A request in flight, with the local variables it holds. *)
Inductive Coroutine :=
| Created (message : string) (session_id : option string)
| Suspended (g : CompiledAgent E) (message : string)
            (session_id : option string) (thread_id : string)
| Finished (r : Result ChatMessage).

(** From the call to the [await]. *)
Definition start (message : string) (session_id : option string) (w : World E)
    : Coroutine * World E :=
  match agent (self w) with
  | None => (Finished (new_ChatMessage ASSISTANT (PyStr not_configured_text)), w)
  | Some g =>
      match resolve_thread uuid4 session_id w with
      | (Ok thread_id, w1) =>
          (Suspended g message session_id thread_id,
           emit (EvInvoke message thread_id) w1)
      | (Raise e, w1) =>
          if isinstance_Exception e
          then let '(r, w2) := on_error e w1 in (Finished r, w2)
          else (Finished (Raise e), w1)
      end
  end.

(** From the [await] to the [return], on what the awaited call gave. *)
Definition resume (outcome : Result PyVal) : StErr (World E) ChatMessage :=
  try_except_st (result ← lift outcome; finish_turn result) on_error.

Definition set_engine (e : E) (w : World E) : World E :=
  {| self := self w; draws := draws w; engine := e; trace := trace w |}.

(** The event loop: a request arrives, a created coroutine runs to its
    [await], or an awaited engine call completes and its coroutine runs
    to the end.  While a call is awaited the engine runs interleaved
    with everything else, so its outcome and the engine state it leaves
    are not constrained here. *)
Inductive sched : list Coroutine * World E -> list Coroutine * World E -> Prop :=
| sched_arrive pool w message session_id :
    sched (pool, w) (pool ++ [Created message session_id], w)
| sched_start pool w i message session_id c w' :
    pool !! i = Some (Created message session_id) ->
    start message session_id w = (c, w') ->
    sched (pool, w) (<[i := c]> pool, w')
| sched_resume pool w i g message session_id thread_id outcome e' r w' :
    pool !! i = Some (Suspended g message session_id thread_id) ->
    resume outcome (set_engine e' w) = (r, w') ->
    sched (pool, w) (<[i := Finished r]> pool, w').

(** A request that runs with no other in flight: the awaited call
    completes on the engine state the first part left. *)
Definition run_alone (message : string) (session_id : option string)
    : StErr (World E) ChatMessage :=
  fun w =>
    match start message session_id w with
    | (Suspended g message' _ thread_id, w1) =>
        let '(outcome, e') := ainvoke g message' thread_id (engine w1) in
        resume outcome (set_engine e' w1)
    | (Finished r, w1) => (r, w1)
    | (Created _ _, w1) => (Raise (Exn "RuntimeError" "coroutine was never awaited"), w1)
    end.

(** The thread identifier a request for session [sid] holds at its
    [await], if it got there. *)
Definition awaits (sid : string) (c : Coroutine) : option string :=
  match c with
  | Suspended _ _ (Some sid') thread_id =>
      if String.eqb sid' sid then Some thread_id else None
  | _ => None
  end.

End Loop.

(** The mappings written for [sid], in order. *)
Fixpoint stores (sid : string) (tr : list Event) : list string :=
  match tr with
  | [] => []
  | EvStore sid' thread_id :: tr' =>
      if String.eqb sid' sid then thread_id :: stores sid tr' else stores sid tr'
  | _ :: tr' => stores sid tr'
  end.

(** Since the trace read [base], either the session [sid] is unmapped,
    no mapping was written for it and no request for it is at its
    [await]; or it is mapped to one identifier, written once, which every
    request for it that is at its [await] holds. *)
Definition settled {E : Type} (sid : string) (base : list Event)
    (pool : list (@Coroutine E)) (w : World E) : Prop :=
  exists new,
    trace w = base ++ new
    /\ ((session_ids (self w) !! sid = None
         /\ stores sid new = []
         /\ Forall (fun c => awaits sid c = None) pool)
        \/ (exists t,
              t <> ""
              /\ session_ids (self w) !! sid = Some t
              /\ stores sid new = [t]
              /\ Forall (fun c => awaits sid c = None \/ awaits sid c = Some t) pool)).

End EventLoop.

(** ** Sample collaborators *)

(** Concrete engines, identifiers and environments, to run the orchestrator
    on examples. *)
Module Sample.
Import Orchestrator.

(** Distinct, non-empty identifiers: ["thread-0"], ["thread-1"], ... *)
Definition uuid4 (n : nat) : string :=
  "thread-" +:+ NilEmpty.string_of_uint (Nat.to_uint n).

(** An engine that answers with the message it was sent; its state counts
    the calls. *)
Definition echo : CompiledAgent nat :=
  {| ainvoke := fun message thread_id n =>
       (Ok (PyDict [("messages",
              PyList [PyObj "HumanMessage" [("content", PyStr message); ("type", PyStr "human")];
                      PyObj "AIMessage" [("content", PyStr ("Echo: " +:+ message));
                                         ("type", PyStr "ai")]])]),
        S n) |}.

(** An engine whose call fails with an ordinary error. *)
Definition failing : CompiledAgent nat :=
  {| ainvoke := fun _ _ n => (Raise (Exn "RuntimeError" "model provider unavailable"), S n) |}.

(** An engine whose call is cancelled while it is awaited. *)
Definition cancelled : CompiledAgent nat :=
  {| ainvoke := fun _ _ n => (Raise (BaseExn "CancelledError" ""), S n) |}.

(** An agent object around the engine [g], before its first turn. *)
Definition configured (g : CompiledAgent nat) : World nat :=
  set_self (set_agent g) (blank 0).

(** An environment that lacks the deployment name. *)
Definition getenv_missing (name : string) : option string :=
  if String.eqb name "AZURE_OPENAI_ENDPOINT"
  then Some "https://example.openai.azure.com/" else None.

Definition getenv_full (name : string) : option string :=
  if String.eqb name "AZURE_OPENAI_ENDPOINT"
  then Some "https://example.openai.azure.com/"
  else if String.eqb name "AZURE_OPENAI_DEPLOYMENT_NAME" then Some "gpt-4o"
  else None.

Definition AzureChatOpenAI (endpoint deployment : string) : Result (string * string) :=
  Ok (endpoint, deployment).

Definition create_react_agent (client : string * string) : Result (CompiledAgent nat) :=
  Ok echo.

(** A result of two key/value records, the tag stored under [key]. *)
Definition two_records (key user_tag assistant_tag : string) : PyVal :=
  PyDict [("messages",
    PyList [PyDict [(key, PyStr user_tag); ("content", PyStr "Hello")];
            PyDict [(key, PyStr assistant_tag); ("content", PyStr "This is the answer")]])].

(** A record that holds its tag under the key [role]. *)
Definition role_record : PyVal :=
  PyDict [("role", PyStr "assistant"); ("content", PyStr "It is noon.")].

(** A transcript of both message shapes: an older answer, an answer whose
    content is a list of blocks, a record tagged under [role], and an
    assistant message without content. *)
Definition blocks_transcript : list PyVal :=
  [ PyObj "AIMessage" [("content", PyStr "An earlier answer."); ("type", PyStr "ai")];
    PyDict [("type", PyStr "assistant");
            ("content",
             PyList [PyDict [("type", PyStr "text"); ("text", PyStr "It is noon.")]])];
    role_record;
    PyObj "AIMessage" [("content", PyStr ""); ("type", PyStr "ai")] ].

(** A transcript of both message shapes whose newest assistant message is
    empty and whose newest message has no tag. *)
Definition mixed_transcript : list PyVal :=
  [ PyDict [("type", PyStr "human"); ("content", PyStr "What time is it?")];
    PyObj "AIMessage" [("content", PyStr "It is noon."); ("type", PyStr "ai")];
    PyObj "ToolMessage" [("content", PyStr "12:00:00"); ("type", PyStr "tool")];
    PyDict [("type", PyStr "assistant"); ("content", PyStr "")];
    PyDict [("content", PyStr "no tag")] ].

(** A client construction that fails, as when no credential is found. *)
Definition no_credential (endpoint deployment : string) : Result (string * string) :=
  Raise (Exn "ClientAuthenticationError" "DefaultAzureCredential failed to retrieve a token").

(** A compilation of the agent that fails. *)
Definition no_agent (client : string * string) : Result (CompiledAgent nat) :=
  Raise (Exn "ValueError" "model does not support tool calling").

(** An engine whose result holds no sequence of messages. *)
Definition malformed : CompiledAgent nat :=
  {| ainvoke := fun _ _ n => (Ok (PyDict [("messages", PyNone)]), S n) |}.


Definition two_tasks : TaskStore.TaskService :=
  snd (Tools.create_task "write report" true
         (snd (Tools.create_task "buy milk" false TaskStore.empty))).

End Sample.

(** * Properties *)

(** ** Result extractor *)

Module ExtractorFacts.
Import Extractor.

Lemma scan_cons (msg : PyVal) (rest : list PyVal) :
  scan (msg :: rest) = if is_reply msg then Some (msg_content msg) else scan rest.
Proof. reflexivity. Qed.

(** Messages that are not replies are passed over. *)
Lemma scan_skip (skipped rest : list PyVal) :
  Forall (fun m => is_reply m = false) skipped ->
  scan (skipped ++ rest) = scan rest.
Proof.
  induction 1 as [|m skipped Hm _ IH]; [reflexivity|].
  rewrite <- app_comm_cons, scan_cons, Hm. exact IH.
Qed.

(** A message that is not a reply can be left out. *)
Lemma scan_drop (before : list PyVal) (m : PyVal) (after : list PyVal) :
  is_reply m = false ->
  scan (before ++ m :: after) = scan (before ++ after).
Proof.
  intros Hm. induction before as [|x before IH]; cbn [app].
  - rewrite scan_cons, Hm. reflexivity.
  - rewrite !scan_cons, IH. reflexivity.
Qed.

Lemma scan_none (msgs : list PyVal) :
  Forall (fun m => is_reply m = false) msgs -> scan msgs = None.
Proof.
  intros H. rewrite <- (app_nil_r msgs). rewrite scan_skip by assumption.
  reflexivity.
Qed.

(** [reversed] succeeds exactly on the values that are sequences. *)
Lemma reversed_sequence (v : PyVal) (l : list PyVal) :
  sequence_of v = Some l -> reversed v = Ok (rev l).
Proof. destruct v; simpl; intros [= <-]; reflexivity. Qed.

Lemma reversed_not_sequence (v : PyVal) :
  sequence_of v = None ->
  exists msg, reversed v = Raise (Exn "TypeError" msg).
Proof. destruct v; simpl; intros [=]; eexists; reflexivity. Qed.

(** The value the loop iterates over is the transcript, reversed. *)
Lemma extract_body_transcript (result : PyVal) (msgs : list PyVal) :
  transcript result = Some msgs ->
  extract_body result = Ok (scan (rev msgs)).
Proof.
  unfold extract_body, transcript.
  destruct result; simpl; try (intros [= <-]; reflexivity).
  destruct (assoc "messages" d) as [v|]; simpl.
  - intros Hv. rewrite (reversed_sequence _ _ Hv). reflexivity.
  - intros [= <-]. reflexivity.
Qed.

Lemma extract_body_malformed (result : PyVal) :
  transcript result = None ->
  exists msg, extract_body result = Raise (Exn "TypeError" msg).
Proof.
  unfold extract_body, transcript.
  destruct result; simpl; try discriminate.
  destruct (assoc "messages" d) as [v|]; simpl; [|discriminate].
  intros Hv. destruct (reversed_not_sequence _ Hv) as [msg ->].
  exists msg. reflexivity.
Qed.

Lemma extract_of_scan (result : PyVal) (msgs : list PyVal) :
  transcript result = Some msgs ->
  _extract_assistant_text result =
    Ok (default (PyStr fallback_text) (scan (rev msgs))).
Proof.
  intros H. unfold _extract_assistant_text.
  rewrite (extract_body_transcript _ _ H). simpl.
  destruct (scan (rev msgs)); reflexivity.
Qed.

Lemma extract_malformed (result : PyVal) :
  transcript result = None ->
  _extract_assistant_text result = Ok (PyStr fallback_text).
Proof.
  intros H. destruct (extract_body_malformed _ H) as [msg Hb].
  unfold _extract_assistant_text. rewrite Hb. reflexivity.
Qed.


Lemma extract_log_malformed (result : PyVal) :
  transcript result = None ->
  extract_log result = ["Failed to extract assistant text from result"].
Proof.
  intros Ht. destruct (extract_body_malformed _ Ht) as [msg Hb].
  unfold extract_log. rewrite Hb. reflexivity.
Qed.

(** The extractor returns on every result. *)
Lemma extract_returns (result : PyVal) :
  exists v, _extract_assistant_text result = Ok v.
Proof.
  destruct (transcript result) as [msgs|] eqn:Ht.
  - eexists. apply (extract_of_scan _ _ Ht).
  - eexists. apply (extract_malformed _ Ht).
Qed.

(** A message without a tag, or without content, is not a reply. *)
Lemma missing_field_not_reply (msg : PyVal) :
  has_field "type" msg = false \/ has_field "content" msg = false ->
  is_reply msg = false.
Proof.
  unfold is_reply, msg_type, msg_content, py_or.
  destruct msg as [| | | | | |d|cls attrs]; try reflexivity; simpl.
  - intros [H|H]; apply bool_decide_eq_false in H;
      apply eq_None_not_Some in H; rewrite H; simpl.
    + reflexivity.
    + apply andb_false_r.
  - intros [H|H]; apply bool_decide_eq_false in H;
      apply eq_None_not_Some in H; rewrite H; simpl.
    + reflexivity.
    + apply andb_false_r.
Qed.

(** C3, as the claim states it: on the two records tagged under the key
    [role] the extractor does not return the assistant's text; it returns
    the fallback string. *)
Lemma extract_role_records_fallback :
  _extract_assistant_text (Sample.two_records "role" "user" "assistant")
    = Ok (PyStr fallback_text)
  /\ _extract_assistant_text (Sample.two_records "role" "user" "assistant")
    <> Ok (PyStr "This is the answer").
Proof. split; [reflexivity | discriminate]. Qed.

(** C3, amended: on the two records [{type: "user", content: "Hello"}] and
    [{type: "assistant", content: "This is the answer"}], the tag being
    stored under the key [type], the extractor returns exactly
    ["This is the answer"]; so it does on the transcript of the
    repository's test, whose second record is tagged ["ai"]. *)
Theorem extract_type_records :
  _extract_assistant_text (Sample.two_records "type" "user" "assistant")
    = Ok (PyStr "This is the answer")
  /\ _extract_assistant_text (Sample.two_records "type" "user" "ai")
    = Ok (PyStr "This is the answer").
Proof. split; reflexivity. Qed.

(** The loop's test decides the result: the content of the newest message
    that passes it, the fallback string when none does or when the result
    holds no sequence of messages. *)
Lemma extract_by_is_reply (result : PyVal) :
  (forall older m newer,
      transcript result = Some (older ++ m :: newer) ->
      is_reply m = true ->
      Forall (fun x => is_reply x = false) newer ->
      _extract_assistant_text result = Ok (msg_content m))
  /\ (forall msgs,
      transcript result = Some msgs ->
      Forall (fun x => is_reply x = false) msgs ->
      _extract_assistant_text result = Ok (PyStr fallback_text))
  /\ (transcript result = None ->
      _extract_assistant_text result = Ok (PyStr fallback_text)).
Proof.
  split; [|split].
  - intros older m newer Ht Hm Hnewer.
    rewrite (extract_of_scan _ _ Ht).
    rewrite rev_app_distr. simpl. rewrite <- app_assoc. simpl.
    rewrite scan_skip by (apply Forall_rev; exact Hnewer).
    rewrite scan_cons, Hm. reflexivity.
  - intros msgs Ht Hnone.
    rewrite (extract_of_scan _ _ Ht).
    rewrite scan_none by (apply Forall_rev; exact Hnone).
    reflexivity.
  - apply extract_malformed.
Qed.

(** Python's truth value of a content is its not being empty. *)
Lemma truthy_NonEmpty (c : PyVal) : truthy c = true <-> NonEmpty c.
Proof.
  split.
  - destruct c as [|b|z|s|l|l|d|cls attrs]; simpl; try discriminate.
    + intros ->. constructor.
    + intros H. constructor. intros ->. discriminate.
    + intros H. constructor. intros ->. discriminate.
    + destruct l; [discriminate | constructor].
    + destruct l; [discriminate | constructor].
    + destruct d; [discriminate | constructor].
    + constructor.
  - destruct 1 as [|z Hz|s Hs| | | |]; simpl; try reflexivity.
    + destruct (Z.eqb_spec z 0); [contradiction | reflexivity].
    + destruct (String.eqb_spec s ""); [contradiction | reflexivity].
Qed.

(** What the expressions of lines 152 and 153 read, when it is true, is
    the value of the field. *)
Lemma read_inv (name : string) (msg : PyVal) :
  truthy (py_or (getattr_or_None msg name)
            (if isinstance_dict msg then dict_get msg name PyNone else PyNone)) = true ->
  field name msg
  = Some (py_or (getattr_or_None msg name)
            (if isinstance_dict msg then dict_get msg name PyNone else PyNone)).
Proof.
  unfold py_or, field.
  destruct msg as [|b|z|s|l|l|d|cls attrs]; simpl; try discriminate.
  - destruct (assoc name d); [reflexivity | discriminate].
  - destruct (assoc name attrs) as [v|]; simpl; [|discriminate].
    destruct (truthy v); [reflexivity | discriminate].
Qed.

Lemma read_some (name : string) (msg v : PyVal) :
  field name msg = Some v -> truthy v = true ->
  py_or (getattr_or_None msg name)
    (if isinstance_dict msg then dict_get msg name PyNone else PyNone) = v.
Proof.
  unfold py_or, field.
  destruct msg as [|b|z|s|l|l|d|cls attrs]; simpl; try discriminate.
  - intros -> _. reflexivity.
  - intros -> Hv. simpl. rewrite Hv. reflexivity.
Qed.

(** The loop's test holds exactly of the messages that carry an assistant
    tag under [type] and content that is not empty. *)
Lemma is_reply_tagged (m : PyVal) :
  is_reply m = true <-> reply_tagged_by "type" m.
Proof.
  unfold is_reply, msg_type, msg_content, reply_tagged_by, assistant_authored_by,
    assistant_tag.
  split.
  - intros H. apply andb_true_iff in H. destruct H as [Htag Hcontent].
    split.
    + eexists. split; [apply read_inv|].
      * destruct (py_or _ _); try discriminate.
        apply orb_true_iff in Htag. destruct Htag as [H | H];
          apply String.eqb_eq in H; subst; reflexivity.
      * destruct (py_or _ _); try discriminate.
        apply orb_true_iff in Htag. destruct Htag as [H | H];
          apply String.eqb_eq in H; subst; [left | right]; reflexivity.
    + eexists. split; [apply read_inv; exact Hcontent|].
      apply truthy_NonEmpty. exact Hcontent.
  - intros [(v & Hv & Htag) (c & Hc & Hne)].
    apply truthy_NonEmpty in Hne.
    rewrite (read_some "content" m c Hc Hne), Hne.
    assert (Htruthy : truthy v = true) by (destruct Htag as [-> | ->]; reflexivity).
    rewrite (read_some "type" m v Hv Htruthy).
    destruct Htag as [-> | ->]; reflexivity.
Qed.

(** The content the loop returns is the value of the field. *)
Lemma reply_content (m c : PyVal) :
  field "content" m = Some c -> NonEmpty c -> msg_content m = c.
Proof.
  intros Hf Hc. apply truthy_NonEmpty in Hc.
  exact (read_some "content" m c Hf Hc).
Qed.

Lemma not_tagged_not_reply (msgs : list PyVal) :
  Forall (fun x => ~ reply_tagged_by "type" x) msgs ->
  Forall (fun x => is_reply x = false) msgs.
Proof.
  intros H. eapply Forall_impl; [exact H|]. intros x Hx.
  destruct (is_reply x) eqn:Hr; [|reflexivity].
  exfalso. apply Hx, is_reply_tagged. exact Hr.
Qed.

(** C4, as the claim states it: a record whose tag is stored under [role]
    carries a role tag that marks it as the assistant's and content that
    is not empty, and is the only message of its transcript; the extractor
    returns the fallback string, not its content. *)
Lemma extract_role_tag_not_read :
  reply_tagged_by "role" Sample.role_record
  /\ _extract_assistant_text (result_of [Sample.role_record])
     = Ok (PyStr fallback_text)
  /\ ~ (forall older m newer c,
          assistant_authored_by "role" m \/ assistant_authored_by "type" m ->
          field "content" m = Some c ->
          NonEmpty c ->
          Forall (fun x => ~ (reply_tagged_by "role" x \/ reply_tagged_by "type" x))
            newer ->
          _extract_assistant_text (result_of (older ++ m :: newer)) = Ok c).
Proof.
  split; [|split].
  - split.
    + exists (PyStr "assistant"). split; [reflexivity | right; reflexivity].
    + exists (PyStr "It is noon."). split; [reflexivity|].
      constructor. discriminate.
  - reflexivity.
  - intros H.
    specialize (H [] Sample.role_record [] (PyStr "It is noon.")).
    discriminate H.
    + left. exists (PyStr "assistant"). split; [reflexivity | right; reflexivity].
    + reflexivity.
    + constructor. discriminate.
    + constructor.
Qed.

(** C4, amended: the extractor scans the transcript from the newest
    message to the oldest and returns the content of the first message
    that carries the tag ["ai"] or ["assistant"] in its field [type], as an
    attribute or as a key (a tag under [role] is not read), and whose
    content is not empty; when no message of the transcript is such a
    reply (none at all, none tagged as the assistant's, or all of those
    empty), or when the result holds no sequence of messages, it returns
    the fallback string. *)
Theorem extract_newest_typed_reply (result : PyVal) :
  (forall older m newer c,
      transcript result = Some (older ++ m :: newer) ->
      assistant_authored_by "type" m ->
      field "content" m = Some c ->
      NonEmpty c ->
      Forall (fun x => ~ reply_tagged_by "type" x) newer ->
      _extract_assistant_text result = Ok c)
  /\ (forall msgs,
      transcript result = Some msgs ->
      Forall (fun x => ~ reply_tagged_by "type" x) msgs ->
      _extract_assistant_text result = Ok (PyStr fallback_text))
  /\ (transcript result = None ->
      _extract_assistant_text result = Ok (PyStr fallback_text)).
Proof.
  destruct (extract_by_is_reply result) as (Hnewest & Hnone & Hmalformed).
  split; [|split].
  - intros older m newer c Ht Htag Hfield Hc Hnewer.
    rewrite <- (reply_content m c Hfield Hc).
    apply (Hnewest older m newer Ht).
    + apply is_reply_tagged. split; [exact Htag|]. exists c. split; assumption.
    + apply not_tagged_not_reply. exact Hnewer.
  - intros msgs Ht Hmsgs.
    apply (Hnone msgs Ht). apply not_tagged_not_reply. exact Hmsgs.
  - exact Hmalformed.
Qed.

(** C4 on a transcript of both shapes: the newest message is an object
    tagged ["ai"] with empty content, the one before it a record tagged
    under [role], and the content returned is the list of blocks of the
    record tagged ["assistant"] under [type] before them; without
    messages, and with a [messages] entry that is no sequence, the
    fallback is. *)
Lemma extract_newest_typed_reply_witness :
  _extract_assistant_text (result_of Sample.blocks_transcript)
    = Ok (PyList [PyDict [("type", PyStr "text"); ("text", PyStr "It is noon.")]])
  /\ _extract_assistant_text (result_of []) = Ok (PyStr fallback_text)
  /\ _extract_assistant_text (PyDict [("messages", PyNone)])
    = Ok (PyStr fallback_text).
Proof.
  split; [|split].
  - apply (proj1 (extract_newest_typed_reply (result_of Sample.blocks_transcript))
             [PyObj "AIMessage" [("content", PyStr "An earlier answer."); ("type", PyStr "ai")]]
             (PyDict [("type", PyStr "assistant");
                      ("content",
                       PyList [PyDict [("type", PyStr "text"); ("text", PyStr "It is noon.")]])])
             [Sample.role_record;
              PyObj "AIMessage" [("content", PyStr ""); ("type", PyStr "ai")]]).
    + reflexivity.
    + exists (PyStr "assistant"). split; [reflexivity | right; reflexivity].
    + reflexivity.
    + constructor.
    + constructor; [|constructor; [|constructor]].
      * intros [(v & Hv & _) _]. discriminate Hv.
      * intros [_ (c & Hc & Hne)]. injection Hc as <-.
        inversion Hne as [|?|s Hs| | | |]. apply Hs. reflexivity.
  - apply (proj1 (proj2 (extract_newest_typed_reply (result_of []))) []).
    + reflexivity.
    + constructor.
  - apply (proj2 (proj2 (extract_newest_typed_reply (PyDict [("messages", PyNone)])))).
    reflexivity.
Defined.

(** C5: the extractor returns a value on every result and never raises;
    a result that is not a record gives the fallback string; and a
    message that lacks the tag or the content is not a match, whichever
    of the two shapes it has: the transcript with it gives what the
    transcript without it gives. *)
Theorem extract_total (result : PyVal) :
  (exists v, _extract_assistant_text result = Ok v)
  /\ (isinstance_dict result = false ->
      _extract_assistant_text result = Ok (PyStr fallback_text))
  /\ (forall older m newer,
      has_field "type" m = false \/ has_field "content" m = false ->
      is_reply m = false
      /\ _extract_assistant_text (result_of (older ++ m :: newer))
         = _extract_assistant_text (result_of (older ++ newer))).
Proof.
  split; [|split].
  - apply extract_returns.
  - intros Hd. destruct result; try discriminate; reflexivity.
  - intros older m newer Hm.
    pose proof (missing_field_not_reply m Hm) as Hnot.
    split; [exact Hnot|].
    rewrite (extract_of_scan (result_of (older ++ m :: newer)) _ eq_refl).
    rewrite (extract_of_scan (result_of (older ++ newer)) _ eq_refl).
    rewrite !rev_app_distr. cbn [rev]. rewrite <- app_assoc. cbn [app].
    rewrite (scan_drop (rev newer) m (rev older) Hnot). reflexivity.
Qed.

(** C5 on a record without tag, on an object without content, and on a
    result that is a list, not a record. *)
Lemma extract_total_witness :
  (exists v, _extract_assistant_text (PyList [PyInt 3]) = Ok v)
  /\ _extract_assistant_text (PyList [PyInt 3]) = Ok (PyStr fallback_text)
  /\ _extract_assistant_text
       (result_of ([PyObj "AIMessage" [("content", PyStr "kept"); ("type", PyStr "ai")]]
                   ++ PyDict [("content", PyStr "no tag")] :: []))
     = _extract_assistant_text
         (result_of ([PyObj "AIMessage" [("content", PyStr "kept"); ("type", PyStr "ai")]]
                     ++ []))
  /\ is_reply (PyObj "AIMessage" [("type", PyStr "ai")]) = false.
Proof.
  split; [|split; [|split]].
  - apply (proj1 (extract_total (PyList [PyInt 3]))).
  - apply (proj1 (proj2 (extract_total (PyList [PyInt 3])))). reflexivity.
  - apply (proj2 (proj2 (extract_total PyNone))). left. reflexivity.
  - apply (proj2 (proj2 (extract_total PyNone)) [] _ []). right. reflexivity.
Defined.

End ExtractorFacts.

(** ** Time utility *)

Module TimeFacts.
Import TimeUtility.

Lemma prefix_append (a x y : string) :
  String.prefix (a +:+ x) (a +:+ y) = String.prefix x y.
Proof.
  induction a as [|c a IH]; [reflexivity|].
  simpl. destruct (ascii_dec c c); [exact IH | congruence].
Qed.

Lemma failure_prefix (timezone description : string) :
  String.prefix ("Failed to get time for " +:+ timezone +:+ ":")
    ("Failed to get time for " +:+ timezone +:+ ": " +:+ description) = true.
Proof. rewrite !prefix_append. reflexivity. Qed.

(** C6: for every timezone string, read at any instant, [get_time_func]
    returns a string and does not raise: the formatted current time when
    the name resolves, and, when the resolution fails with an error [e],
    the text ["Failed to get time for <name>: <e>"], which starts with
    ["Failed to get time for <name>:"]. *)
Theorem get_time_returns_text `{TimeLib} (clock : Z) (timezone : string) :
  exists text,
    get_time_func clock timezone = Ok text
    /\ (forall tz, ZoneInfo timezone = inl tz ->
          text = strftime_now clock tz time_format)
    /\ (forall cls description, ZoneInfo timezone = inr (cls, description) ->
          text = "Failed to get time for " +:+ timezone +:+ ": " +:+ description
          /\ String.prefix ("Failed to get time for " +:+ timezone +:+ ":") text = true).
Proof.
  unfold get_time_func, call_ZoneInfo.
  destruct (ZoneInfo timezone) as [tz|[cls description]]; simpl.
  - eexists. split; [reflexivity|]. split.
    + intros tz' [= <-]. reflexivity.
    + intros ? ? [=].
  - eexists. split; [reflexivity|]. split.
    + intros ? [=].
    + intros ? ? [= <- <-]. split; [reflexivity | apply failure_prefix].
Qed.

(** C6 on the sample database, for a zone it knows and for the name of
    the repository's test. *)
Lemma get_time_returns_text_witness :
  (exists text,
     @get_time_func Zones.lib 0 "Asia/Kolkata" = Ok text
     /\ text = "1970-01-01 05:30:00 IST+0530")
  /\ (exists text,
     @get_time_func Zones.lib 0 "Invalid/Timezone" = Ok text
     /\ String.prefix "Failed to get time for Invalid/Timezone:" text = true).
Proof.
  split.
  - destruct (@get_time_returns_text Zones.lib 0 "Asia/Kolkata")
      as (text & Hrun & Hok & _).
    exists text. split; [exact Hrun|].
    apply (Hok {| Zones.abbreviation := "IST"; Zones.offset_minutes := 330 |}).
    reflexivity.
  - destruct (@get_time_returns_text Zones.lib 0 "Invalid/Timezone")
      as (text & Hrun & _ & Hfail).
    exists text. split; [exact Hrun|].
    apply (Hfail "ZoneInfoNotFoundError"
             "'No time zone found with key Invalid/Timezone'").
    reflexivity.
Defined.

(** The clock reading 0 and the instant 2000-02-29 00:00:00 UTC. *)
Example get_time_examples :
  @get_time_func Zones.lib 0 "Asia/Kolkata" = Ok "1970-01-01 05:30:00 IST+0530"
  /\ @get_time_func Zones.lib 951782400 "UTC" = Ok "2000-02-29 00:00:00 UTC+0000"
  /\ @get_time_func Zones.lib 0 "Invalid/Timezone"
     = Ok "Failed to get time for Invalid/Timezone: 'No time zone found with key Invalid/Timezone'".
Proof. repeat split. Qed.

End TimeFacts.

(** ** Tool catalog *)

Module ToolFacts.
Import TaskStore.

Lemma absent_find (i : Z) (s : TaskService) :
  absent i s -> List.find (has_id i) (tasks s) = None.
Proof.
  unfold absent. induction 1 as [|t l Ht _ IH]; [reflexivity|].
  simpl. unfold has_id at 1. destruct (Z.eqb_spec (id t) i); [contradiction | exact IH].
Qed.

Lemma absent_existsb (i : Z) (s : TaskService) :
  absent i s -> existsb (has_id i) (tasks s) = false.
Proof.
  unfold absent. induction 1 as [|t l Ht _ IH]; [reflexivity|].
  simpl. unfold has_id at 1. destruct (Z.eqb_spec (id t) i); [contradiction | exact IH].
Qed.

(** C8: no tool raises on an expected outcome, each returns text: for an
    identifier absent from the store, [getTask], [updateTask] and
    [deleteTask] return ["Task with ID <id> not found."] and leave the
    store as it was; on a store without tasks [getTasks] returns
    ["No tasks found."]; and on every store each of the five task tools
    returns a text. *)
Theorem tools_return_text (s : TaskService) (i : Z) :
  (absent i s ->
     Tools.get_task i s = (Ok ("Task with ID " +:+ str_int i +:+ " not found."), s)
     /\ (forall ttl done,
           Tools.update_task i ttl done s
             = (Ok ("Task with ID " +:+ str_int i +:+ " not found."), s))
     /\ Tools.delete_task i s
          = (Ok ("Task with ID " +:+ str_int i +:+ " not found."), s))
  /\ (tasks s = [] -> Tools.get_tasks s = (Ok "No tasks found.", s))
  /\ (forall ttl done, exists text, fst (Tools.create_task ttl done s) = Ok text)
  /\ (exists text, fst (Tools.get_tasks s) = Ok text)
  /\ (exists text, fst (Tools.get_task i s) = Ok text)
  /\ (forall ttl done, exists text, fst (Tools.update_task i ttl done s) = Ok text)
  /\ (exists text, fst (Tools.delete_task i s) = Ok text).
Proof.
  repeat split.
  - unfold Tools.get_task, get_task_by_id, mbind, StErr_bind.
    rewrite (absent_find _ _ H). reflexivity.
  - intros ttl done.
    unfold Tools.update_task, update_task, mbind, StErr_bind.
    rewrite (absent_find _ _ H). reflexivity.
  - unfold Tools.delete_task, delete_task, mbind, StErr_bind.
    rewrite (absent_existsb _ _ H). reflexivity.
  - intros Hempty.
    unfold Tools.get_tasks, get_all_tasks, mbind, StErr_bind.
    rewrite Hempty. reflexivity.
  - intros ttl done. eexists. reflexivity.
  - unfold Tools.get_tasks, get_all_tasks, mbind, StErr_bind.
    destruct (tasks s); eexists; reflexivity.
  - unfold Tools.get_task, get_task_by_id, mbind, StErr_bind.
    destruct (List.find (has_id i) (tasks s)); eexists; reflexivity.
  - intros ttl done.
    unfold Tools.update_task, update_task, mbind, StErr_bind.
    destruct (List.find (has_id i) (tasks s)); eexists; reflexivity.
  - unfold Tools.delete_task, delete_task, mbind, StErr_bind.
    destruct (existsb (has_id i) (tasks s)); eexists; reflexivity.
Qed.

(** C8 on a store of two tasks, asked for the identifier 7, and on the
    empty store. *)
Lemma tools_return_text_witness :
  Tools.get_task 7 Sample.two_tasks
    = (Ok "Task with ID 7 not found.", Sample.two_tasks)
  /\ Tools.update_task 7 (Some "x") None Sample.two_tasks
    = (Ok "Task with ID 7 not found.", Sample.two_tasks)
  /\ Tools.delete_task 7 Sample.two_tasks
    = (Ok "Task with ID 7 not found.", Sample.two_tasks)
  /\ Tools.get_tasks empty = (Ok "No tasks found.", empty).
Proof.
  assert (Habsent : absent 7 Sample.two_tasks).
  { repeat constructor; discriminate. }
  destruct (proj1 (tools_return_text Sample.two_tasks 7) Habsent)
    as (Hget & Hupdate & Hdelete).
  split; [exact Hget|]. split; [exact (Hupdate (Some "x") None)|].
  split; [exact Hdelete|].
  apply (proj1 (proj2 (tools_return_text empty 0))). reflexivity.
Defined.

Example tools_examples :
  fst (Tools.get_tasks Sample.two_tasks)
    = Ok ("Found 2 tasks:" +:+ newline +:+ "- 1: buy milk (Incomplete)"
            +:+ newline +:+ "- 2: write report (Complete)")
  /\ fst (Tools.get_task 2 Sample.two_tasks)
     = Ok ("Task 2: " +:+ dquote +:+ "write report" +:+ dquote +:+ " - Status: Complete")
  /\ fst (Tools.update_task 1 None (Some true) Sample.two_tasks)
     = Ok "Task 1 updated successfully."
  /\ tasks (snd (Tools.update_task 1 None (Some true) Sample.two_tasks))
     = [ {| id := 1; title := "buy milk"; isComplete := true |};
         {| id := 2; title := "write report"; isComplete := true |} ]
  /\ Tools.delete_task 1 (snd (Tools.delete_task 1 Sample.two_tasks))
     = (Ok "Task with ID 1 not found.", snd (Tools.delete_task 1 Sample.two_tasks)).
Proof. repeat split. Qed.

End ToolFacts.

(** ** Agent orchestrator *)

Module OrchestratorFacts.
Import Orchestrator.

Lemma sample_uuid4_inj (n m : nat) : Sample.uuid4 n = Sample.uuid4 m -> n = m.
Proof.
  unfold Sample.uuid4.
  generalize (NilEmpty.usu (Nat.to_uint n)), (NilEmpty.usu (Nat.to_uint m)).
  generalize (NilEmpty.string_of_uint (Nat.to_uint n)),
             (NilEmpty.string_of_uint (Nat.to_uint m)).
  intros a b Ha Hb Hab. injection Hab as Hab. change (a = b) in Hab.
  apply Unsigned.to_uint_inj. congruence.
Qed.

Lemma sample_uuid4_nonempty (n : nat) : Sample.uuid4 n <> "".
Proof. unfold Sample.uuid4. discriminate. Qed.

Lemma opt_truthy_Some (s : string) : s <> "" -> opt_truthy (Some s) = true.
Proof.
  intros H. simpl. destruct (String.eqb_spec s ""); [contradiction | reflexivity].
Qed.

Section Facts.
Context {E : Type} (uuid4 : nat -> string).
Implicit Types (w : World E) (g : CompiledAgent E).

(** *** Thread resolution *)

(** A session the map knows is resolved to its entry, and nothing
    changes. *)
Lemma resolve_known w s t :
  s <> "" -> t <> "" -> session_ids (self w) !! s = Some t ->
  resolve_thread uuid4 (Some s) w = (Ok t, w).
Proof.
  intros Hs Ht Hlookup. unfold resolve_thread.
  rewrite (opt_truthy_Some s Hs), Hlookup, (opt_truthy_Some t Ht).
  reflexivity.
Qed.

(** A session the map does not know gets the next identifier, and the
    mapping is written. *)
Lemma resolve_new w s :
  s <> "" -> session_ids (self w) !! s = None ->
  resolve_thread uuid4 (Some s) w =
    (Ok (uuid4 (draws w)),
     {| self := set_session s (uuid4 (draws w)) (self w);
        draws := S (draws w); engine := engine w;
        trace := (trace w ++ [EvUuid4 (uuid4 (draws w))])
                   ++ [EvStore s (uuid4 (draws w))] |}).
Proof.
  intros Hs Hlookup. unfold resolve_thread.
  rewrite (opt_truthy_Some s Hs), Hlookup. reflexivity.
Qed.

(** Without a session, and with the empty one, the next identifier is
    drawn and nothing is written. *)
Lemma resolve_anonymous w session_id :
  session_id = None \/ session_id = Some "" ->
  resolve_thread uuid4 session_id w =
    (Ok (uuid4 (draws w)),
     {| self := self w; draws := S (draws w); engine := engine w;
        trace := trace w ++ [EvUuid4 (uuid4 (draws w))] |}).
Proof. intros [-> | ->]; reflexivity. Qed.

(** Thread resolution returns. *)
Lemma resolve_returns w session_id :
  exists t, fst (resolve_thread uuid4 session_id w) = Ok t.
Proof.
  unfold resolve_thread. destruct session_id as [s|]; [|eexists; reflexivity].
  destruct (opt_truthy (Some s)); [|eexists; reflexivity].
  destruct (negb (opt_truthy (session_ids (self w) !! s))); eexists; reflexivity.
Qed.

Lemma resolve_ok w session_id :
  exists t w1, resolve_thread uuid4 session_id w = (Ok t, w1).
Proof.
  destruct (resolve_returns w session_id) as [t Ht].
  destruct (resolve_thread uuid4 session_id w) as [r w1].
  simpl in Ht. subst r. eauto.
Qed.

(** *** The two parts of a turn *)

Lemma start_configured w g message session_id t w1 :
  agent (self w) = Some g ->
  resolve_thread uuid4 session_id w = (Ok t, w1) ->
  EventLoop.start uuid4 message session_id w =
    (EventLoop.Suspended g message session_id t, emit (EvInvoke message t) w1).
Proof. intros Hg Hr. unfold EventLoop.start. rewrite Hg, Hr. reflexivity. Qed.

Lemma start_unconfigured w message session_id :
  agent (self w) = None ->
  EventLoop.start uuid4 message session_id w =
    (EventLoop.Finished (Ok not_configured_reply), w).
Proof. intros Hg. unfold EventLoop.start. rewrite Hg. reflexivity. Qed.

(** An error of the awaited call becomes the failure reply. *)
Lemma resume_raised w e :
  isinstance_Exception e = true ->
  EventLoop.resume (Raise e) w =
    (Ok failure_reply,
     emit (EvLog "Error processing message with LangGraph agent") w).
Proof.
  intros He. unfold EventLoop.resume, try_except_st. simpl. rewrite He.
  reflexivity.
Qed.

(** What is not an [Exception] passes through the handler. *)
Lemma resume_passes w e :
  isinstance_Exception e = false ->
  EventLoop.resume (Raise e) w = (Raise e, w).
Proof.
  intros He. unfold EventLoop.resume, try_except_st. simpl. rewrite He.
  reflexivity.
Qed.

(** Writing to the log changes the trace only. *)
Lemma log_all_frame w texts :
  self (snd (log_all texts w)) = self w
  /\ draws (snd (log_all texts w)) = draws w
  /\ engine (snd (log_all texts w)) = engine w
  /\ trace (snd (log_all texts w)) = trace w ++ map EvLog texts.
Proof.
  unfold log_all. simpl. revert w.
  induction texts as [|text texts IH]; intros w; simpl.
  - repeat split. symmetry. apply app_nil_r.
  - destruct (IH (emit (EvLog text) w)) as (-> & -> & -> & ->). simpl.
    repeat split. rewrite <- app_assoc. reflexivity.
Qed.

(** A result of the awaited call becomes a reply: the extracted text,
    or the failure reply when the extracted content is not text; the
    extractor's records are in the log. *)
Lemma resume_returned w result :
  (exists text,
      Extractor._extract_assistant_text result = Ok (PyStr text)
      /\ EventLoop.resume (Ok result) w
           = (Ok {| role := ASSISTANT; content := text |},
              snd (log_all (Extractor.extract_log result) w)))
  \/ EventLoop.resume (Ok result) w =
       (Ok failure_reply,
        emit (EvLog "Error processing message with LangGraph agent")
          (snd (log_all (Extractor.extract_log result) w))).
Proof.
  unfold EventLoop.resume, try_except_st, finish_turn.
  destruct (ExtractorFacts.extract_returns result) as [v Hv].
  simpl. unfold lift, mbind, StErr_bind, log_all. rewrite Hv.
  destruct v; simpl; try (right; reflexivity).
  left. eexists. split; reflexivity.
Qed.

(** The second part of a turn writes to the log at most. *)
Lemma resume_frame w outcome :
  self (snd (EventLoop.resume outcome w)) = self w
  /\ draws (snd (EventLoop.resume outcome w)) = draws w
  /\ engine (snd (EventLoop.resume outcome w)) = engine w
  /\ exists rest,
      trace (snd (EventLoop.resume outcome w)) = trace w ++ rest
      /\ exists texts, rest = map EvLog texts.
Proof.
  destruct outcome as [result|e].
  - destruct (log_all_frame w (Extractor.extract_log result))
      as (Hself & Hdraws & Hengine & Htrace).
    destruct (resume_returned w result) as [(text & _ & ->) | ->];
      cbn [snd]; unfold emit; cbn [self draws engine trace];
      rewrite ?Hself, ?Hdraws, ?Hengine, ?Htrace;
      (split; [reflexivity|]); (split; [reflexivity|]); (split; [reflexivity|]).
    + eexists. split; [reflexivity|]. eexists. reflexivity.
    + exists (map EvLog (Extractor.extract_log result
                           ++ ["Error processing message with LangGraph agent"])).
      split; [|eexists; reflexivity].
      rewrite map_app, <- app_assoc. reflexivity.
  - destruct (isinstance_Exception e) eqn:He.
    + rewrite (resume_raised w e He). simpl. repeat split.
      exists (map EvLog ["Error processing message with LangGraph agent"]).
      split; [reflexivity | eexists; reflexivity].
    + rewrite (resume_passes w e He). simpl. repeat split.
      exists []. split; [symmetry; apply app_nil_r | exists []; reflexivity].
Qed.

(** A turn is its first part, the engine call, and its second part. *)
Lemma process_message_run_alone message session_id w :
  process_message uuid4 message session_id w
    = EventLoop.run_alone uuid4 message session_id w.
Proof.
  unfold EventLoop.run_alone.
  destruct (agent (self w)) as [g|] eqn:Hg.
  - destruct (resolve_ok w session_id) as (t & w1 & Hr).
    rewrite (start_configured w g message session_id t w1 Hg Hr).
    unfold process_message. rewrite Hg.
    unfold try_except_st at 1. unfold mbind, StErr_bind. rewrite Hr.
    unfold call_ainvoke. simpl.
    destruct (ainvoke g message t (engine w1)) as [[result|e] e'];
      reflexivity.
  - rewrite (start_unconfigured w message session_id Hg).
    unfold process_message. rewrite Hg. reflexivity.
Qed.

Lemma process_message_configured w g message session_id t w1 outcome e' :
  agent (self w) = Some g ->
  resolve_thread uuid4 session_id w = (Ok t, w1) ->
  ainvoke g message t (engine w1) = (outcome, e') ->
  process_message uuid4 message session_id w
    = EventLoop.resume outcome
        (EventLoop.set_engine e' (emit (EvInvoke message t) w1)).
Proof.
  intros Hg Hr Hcall. rewrite process_message_run_alone.
  unfold EventLoop.run_alone.
  rewrite (start_configured w g message session_id t w1 Hg Hr).
  simpl. rewrite Hcall. reflexivity.
Qed.

Lemma process_message_unconfigured w message session_id :
  agent (self w) = None ->
  process_message uuid4 message session_id w
    = (Ok not_configured_reply, w).
Proof. intros Hg. unfold process_message. rewrite Hg. reflexivity. Qed.

(** *** Replies *)

(** C1, amended: for every message and session, [process_message]
    returns a reply whose role is ["assistant"] whenever the engine call
    raises nothing but instances of [Exception]: an error of the call
    becomes the fixed failure reply, and an agent without engine gives
    the fixed not-configured reply.  (What is not an [Exception] is not
    caught.) *)
Theorem process_message_replies w message session_id :
  (forall g t st e,
      agent (self w) = Some g ->
      fst (ainvoke g message t st) = Raise e ->
      isinstance_Exception e = true) ->
  exists reply w',
    process_message uuid4 message session_id w = (Ok reply, w')
    /\ role reply = ASSISTANT
    /\ Role_value (role reply) = "assistant"
    /\ (forall g t w1 e,
          agent (self w) = Some g ->
          resolve_thread uuid4 session_id w = (Ok t, w1) ->
          fst (ainvoke g message t (engine w1)) = Raise e ->
          reply = failure_reply)
    /\ (agent (self w) = None -> reply = not_configured_reply).
Proof.
  intros Hraises.
  destruct (agent (self w)) as [g|] eqn:Hg.
  - destruct (resolve_ok w session_id) as (t & w1 & Hr).
    destruct (ainvoke g message t (engine w1)) as [outcome e'] eqn:Hcall.
    rewrite (process_message_configured w g message session_id t w1 outcome e' Hg Hr Hcall).
    destruct outcome as [result|e].
    + destruct (resume_returned
                  (EventLoop.set_engine e' (emit (EvInvoke message t) w1)) result)
        as [(text & _ & ->) | ->].
      * eexists _, _. split; [reflexivity|]. repeat split.
        -- intros g' t' w1' e [= <-] Hr' Hraise.
           rewrite Hr in Hr'. injection Hr' as <- <-.
           rewrite Hcall in Hraise. discriminate.
        -- discriminate.
      * eexists _, _. split; [reflexivity|]. repeat split. discriminate.
    + assert (He : isinstance_Exception e = true).
      { apply (Hraises g t (engine w1) e eq_refl). rewrite Hcall. reflexivity. }
      rewrite (resume_raised _ e He).
      eexists _, _. split; [reflexivity|]. repeat split. discriminate.
  - rewrite (process_message_unconfigured w message session_id Hg).
    eexists _, _. split; [reflexivity|]. repeat split.
    intros g t w1 e [=].
Qed.

(** Nothing the process does gives an agent its engine. *)
Lemma unconfigured_stays w0 w :
  agent (self w0) = None -> rtc (step uuid4) w0 w -> agent (self w) = None.
Proof.
  intros H0 Hsteps. induction Hsteps as [|w1 w2 w3 Hstep _ IH]; [exact H0|].
  apply IH. destruct Hstep as [(message & session_id & <-) | (session_id & <-)].
  - rewrite (process_message_unconfigured w1 message session_id H0). exact H0.
  - unfold resolve_thread. destruct session_id as [s|]; [|exact H0].
    destruct (opt_truthy (Some s)); [|exact H0].
    destruct (negb (opt_truthy (session_ids (self w1) !! s))); exact H0.
Qed.

(** *** The session map *)

(** What thread resolution does for a session that is not empty. *)
Lemma resolve_session w s :
  s <> "" ->
  (exists t, t <> "" /\ session_ids (self w) !! s = Some t
             /\ resolve_thread uuid4 (Some s) w = (Ok t, w))
  \/ ((session_ids (self w) !! s = None \/ session_ids (self w) !! s = Some "")
      /\ resolve_thread uuid4 (Some s) w =
           (Ok (uuid4 (draws w)),
            {| self := set_session s (uuid4 (draws w)) (self w);
               draws := S (draws w); engine := engine w;
               trace := (trace w ++ [EvUuid4 (uuid4 (draws w))])
                          ++ [EvStore s (uuid4 (draws w))] |})).
Proof.
  intros Hs. destruct (session_ids (self w) !! s) as [t|] eqn:Hlookup.
  - destruct (String.eqb_spec t "") as [-> | Ht].
    + right. split; [right; reflexivity|].
      unfold resolve_thread. rewrite (opt_truthy_Some s Hs), Hlookup. reflexivity.
    + left. exists t. split; [exact Ht|]. split; [reflexivity|].
      apply resolve_known; assumption.
  - right. split; [left; reflexivity|]. apply resolve_new; assumption.
Qed.

(** The entry of the resolved session is the identifier returned, and
    the entries of the other sessions are as before. *)
Lemma resolve_records w s t w1 :
  s <> "" -> resolve_thread uuid4 (Some s) w = (Ok t, w1) ->
  session_ids (self w1) !! s = Some t
  /\ forall s', s' <> s ->
       session_ids (self w1) !! s' = session_ids (self w) !! s'.
Proof.
  intros Hs Hr.
  destruct (resolve_session w s Hs) as [(t' & _ & Hlookup & Hr') | (_ & Hr')];
    rewrite Hr' in Hr; injection Hr as <- <-.
  - split; [exact Hlookup | reflexivity].
  - simpl. split; [apply lookup_insert_eq|].
    intros s' Hne. apply lookup_insert_ne. congruence.
Qed.

Lemma sessions_ok_frame w w' :
  self w' = self w -> draws w' = draws w ->
  sessions_ok uuid4 w -> sessions_ok uuid4 w'.
Proof. unfold sessions_ok. intros -> ->. exact id. Qed.

Section Fresh.
(** The identifiers [uuid4] hands out are pairwise distinct and, being
    36 characters long, not empty. *)
Hypothesis uuid4_fresh : forall n m, uuid4 n = uuid4 m -> n = m.
Hypothesis uuid4_nonempty : forall n, uuid4 n <> "".

Lemma sessions_ok_draw w :
  sessions_ok uuid4 w ->
  sessions_ok uuid4
    {| self := self w; draws := S (draws w); engine := engine w;
       trace := trace w ++ [EvUuid4 (uuid4 (draws w))] |}.
Proof.
  intros [Hknown Hinj]. split; simpl; [|exact Hinj].
  intros s t Hlookup. destruct (Hknown s t Hlookup) as (n & Hn & ->).
  exists n. split; [lia | reflexivity].
Qed.

Lemma resolve_preserves w session_id :
  sessions_ok uuid4 w ->
  sessions_ok uuid4 (snd (resolve_thread uuid4 session_id w)).
Proof.
  intros Hok.
  assert (Hanon : session_id = None \/ session_id = Some ""
                  \/ exists s, s <> "" /\ session_id = Some s).
  { destruct session_id as [s|]; [|left; reflexivity].
    destruct (String.eqb_spec s "") as [-> | Hs]; [right; left; reflexivity|].
    right; right. exists s. split; [exact Hs | reflexivity]. }
  destruct Hanon as [H | [H | (s & Hs & ->)]].
  1, 2: rewrite resolve_anonymous by tauto; apply sessions_ok_draw; exact Hok.
  destruct (resolve_session w s Hs) as [(t & _ & _ & ->) | (Hlookup & ->)];
    [exact Hok|].
  destruct Hok as [Hknown Hinj]. split; simpl.
  - intros s' t. destruct (decide (s = s')) as [<- | Hne].
    + rewrite lookup_insert_eq. intros [= <-].
      exists (draws w). split; [lia | reflexivity].
    + rewrite lookup_insert_ne by exact Hne. intros Hl.
      destruct (Hknown s' t Hl) as (n & Hn & ->).
      exists n. split; [lia | reflexivity].
  - assert (Hold : forall s' t, s' <> s ->
               session_ids (self w) !! s' = Some t -> t <> uuid4 (draws w)).
    { intros s' t _ Hl Heq. destruct (Hknown s' t Hl) as (n & Hn & ->).
      apply uuid4_fresh in Heq. lia. }
    intros s1 s2 t.
    destruct (decide (s = s1)) as [<- | Hne1];
      destruct (decide (s = s2)) as [<- | Hne2]; [reflexivity | | |].
    + rewrite lookup_insert_eq, lookup_insert_ne by exact Hne2.
      intros [= <-] Hl. exfalso.
      apply (Hold s2 _ (not_eq_sym Hne2) Hl). reflexivity.
    + rewrite lookup_insert_eq, lookup_insert_ne by exact Hne1.
      intros Hl [= <-]. exfalso.
      apply (Hold s1 _ (not_eq_sym Hne1) Hl). reflexivity.
    + rewrite !lookup_insert_ne by assumption. apply Hinj.
Qed.

(** A turn changes the agent's fields and the count of draws as its
    thread resolution does. *)
Lemma turn_as_resolution w message session_id :
  agent (self w) = None
  \/ (self (snd (process_message uuid4 message session_id w))
        = self (snd (resolve_thread uuid4 session_id w))
      /\ draws (snd (process_message uuid4 message session_id w))
        = draws (snd (resolve_thread uuid4 session_id w))).
Proof.
  destruct (agent (self w)) as [g|] eqn:Hg; [right | left; reflexivity].
  destruct (resolve_ok w session_id) as (t & w1 & Hr).
  destruct (ainvoke g message t (engine w1)) as [outcome e'] eqn:Hcall.
  rewrite (process_message_configured w g message session_id t w1 outcome e' Hg Hr Hcall).
  rewrite Hr. simpl.
  destruct (resume_frame
              (EventLoop.set_engine e' (emit (EvInvoke message t) w1)) outcome)
    as (Hself & Hdraws & _).
  rewrite Hself, Hdraws. split; reflexivity.
Qed.

Lemma step_preserves w w' :
  step uuid4 w w' -> sessions_ok uuid4 w -> sessions_ok uuid4 w'.
Proof.
  intros [(message & session_id & <-) | (session_id & <-)] Hok.
  - destruct (turn_as_resolution w message session_id) as [Hg | [Hself Hdraws]].
    + rewrite (process_message_unconfigured w message session_id Hg). exact Hok.
    + eapply sessions_ok_frame; [exact Hself | exact Hdraws |].
      apply resolve_preserves. exact Hok.
  - apply resolve_preserves. exact Hok.
Qed.

Lemma steps_preserve w w' :
  rtc (step uuid4) w w' -> sessions_ok uuid4 w -> sessions_ok uuid4 w'.
Proof.
  induction 1 as [|w1 w2 w3 Hstep _ IH]; [exact id|].
  intros Hok. apply IH. exact (step_preserves _ _ Hstep Hok).
Qed.

(** A mapped identifier is not empty. *)
Lemma mapped_nonempty w s t :
  sessions_ok uuid4 w -> session_ids (self w) !! s = Some t -> t <> "".
Proof.
  intros [Hknown _] Hl. destruct (Hknown s t Hl) as (n & _ & ->).
  apply uuid4_nonempty.
Qed.

(** An entry of the map, once written, is never written again. *)
Lemma resolve_keeps w session_id s t :
  sessions_ok uuid4 w -> session_ids (self w) !! s = Some t ->
  session_ids (self (snd (resolve_thread uuid4 session_id w))) !! s = Some t.
Proof.
  intros Hok Hl.
  destruct session_id as [s'|]; [|exact Hl].
  destruct (String.eqb_spec s' "") as [-> | Hs']; [exact Hl|].
  destruct (resolve_thread uuid4 (Some s') w) as [r w1] eqn:Hr.
  destruct (resolve_ok w (Some s')) as (t' & w1' & Hr').
  rewrite Hr' in Hr. injection Hr as <- <-.
  destruct (resolve_records w s' t' w1' Hs' Hr') as [Hnew Hothers].
  destruct (decide (s = s')) as [<- | Hne]; [|simpl; rewrite Hothers; assumption].
  simpl. rewrite Hnew. f_equal.
  rewrite (resolve_known w s t Hs' (mapped_nonempty w s t Hok Hl) Hl) in Hr'.
  congruence.
Qed.

Lemma step_keeps w w' s t :
  step uuid4 w w' -> sessions_ok uuid4 w ->
  session_ids (self w) !! s = Some t -> session_ids (self w') !! s = Some t.
Proof.
  intros [(message & session_id & <-) | (session_id & <-)] Hok Hl.
  - destruct (turn_as_resolution w message session_id) as [Hg | [Hself _]].
    + rewrite (process_message_unconfigured w message session_id Hg). exact Hl.
    + rewrite Hself. apply resolve_keeps; assumption.
  - apply resolve_keeps; assumption.
Qed.

Lemma steps_keep w w' s t :
  rtc (step uuid4) w w' -> sessions_ok uuid4 w ->
  session_ids (self w) !! s = Some t -> session_ids (self w') !! s = Some t.
Proof.
  induction 1 as [|w1 w2 w3 Hstep _ IH]; [intros _; exact id|].
  intros Hok Hl. apply IH.
  - exact (step_preserves _ _ Hstep Hok).
  - exact (step_keeps _ _ _ _ Hstep Hok Hl).
Qed.

End Fresh.

Lemma sessions_ok_empty w : session_ids (self w) = ∅ -> sessions_ok uuid4 w.
Proof.
  intros Hempty. split; intros *; rewrite Hempty, lookup_empty; discriminate.
Qed.

(** C2, amended: from an agent whose session map is empty, and with
    [uuid4] never handing out the same identifier twice, the map is a
    stable injective function on the session identifiers that are not
    empty: a resolution for such an [s] records the identifier it
    returns, every later resolution for [s] returns the same identifier
    and writes nothing, and resolutions for two distinct such
    identifiers return distinct thread identifiers.  (The empty session
    identifier is treated as no session.) *)
Theorem session_threads_stable_injective
    (uuid4_fresh : forall n m, uuid4 n = uuid4 m -> n = m)
    (uuid4_nonempty : forall n, uuid4 n <> "")
    (w0 w : World E) :
  session_ids (self w0) = ∅ ->
  rtc (step uuid4) w0 w ->
  (forall s t w1,
      s <> "" ->
      resolve_thread uuid4 (Some s) w = (Ok t, w1) ->
      session_ids (self w1) !! s = Some t
      /\ forall w2, rtc (step uuid4) w1 w2 ->
           resolve_thread uuid4 (Some s) w2 = (Ok t, w2))
  /\ (forall s1 s2 t1 t2 w1 w2 w3,
      s1 <> "" -> s2 <> "" -> s1 <> s2 ->
      resolve_thread uuid4 (Some s1) w = (Ok t1, w1) ->
      rtc (step uuid4) w1 w2 ->
      resolve_thread uuid4 (Some s2) w2 = (Ok t2, w3) ->
      t1 <> t2).
Proof.
  intros Hempty Hsteps.
  assert (Hok : sessions_ok uuid4 w).
  { apply (steps_preserve uuid4_fresh w0 w Hsteps).
    apply sessions_ok_empty. exact Hempty. }
  assert (Hafter : forall s t w1,
             resolve_thread uuid4 (Some s) w = (Ok t, w1) ->
             sessions_ok uuid4 w1).
  { intros s t w1 Hr.
    pose proof (resolve_preserves uuid4_fresh w (Some s) Hok) as H1.
    rewrite Hr in H1. exact H1. }
  split.
  - intros s t w1 Hs Hr.
    destruct (resolve_records w s t w1 Hs Hr) as [Hl _].
    split; [exact Hl|].
    intros w2 Hsteps2.
    pose proof (Hafter s t w1 Hr) as Hok1.
    apply resolve_known; [exact Hs | |].
    + exact (mapped_nonempty uuid4_nonempty w1 s t Hok1 Hl).
    + exact (steps_keep uuid4_fresh uuid4_nonempty w1 w2 s t Hsteps2 Hok1 Hl).
  - intros s1 s2 t1 t2 w1 w2 w3 Hs1 Hs2 Hne Hr1 Hsteps2 Hr2 Heq. subst t2.
    destruct (resolve_records w s1 t1 w1 Hs1 Hr1) as [Hl1 _].
    pose proof (Hafter s1 t1 w1 Hr1) as Hok1.
    pose proof (steps_keep uuid4_fresh uuid4_nonempty w1 w2 s1 t1 Hsteps2 Hok1 Hl1)
      as Hl1'.
    pose proof (steps_preserve uuid4_fresh w1 w2 Hsteps2 Hok1) as Hok2.
    destruct (resolve_records w2 s2 t1 w3 Hs2 Hr2) as [Hl2 Hothers].
    pose proof (resolve_preserves uuid4_fresh w2 (Some s2) Hok2) as Hok3.
    rewrite Hr2 in Hok3. simpl in Hok3.
    apply Hne. apply (proj2 Hok3 s1 s2 t1); [|exact Hl2].
    rewrite Hothers by exact Hne. exact Hl1'.
Qed.

(** C10, amended: a turn with a session identifier that is not empty
    and not yet mapped draws an identifier and records the mapping
    before the engine is invoked; whatever the engine call and the
    extraction then do, the turn ends with the agent's fields as the
    resolution left them, the mapping included, and an error of the
    call gives the failure reply; a later turn with the same session
    identifier invokes the engine with the identifier of the first.
    (The empty session identifier is treated as no session.) *)
Theorem failed_turn_keeps_mapping
    (uuid4_nonempty : forall n, uuid4 n <> "")
    (w : World E) (g : CompiledAgent E) (message s : string) :
  agent (self w) = Some g ->
  s <> "" ->
  session_ids (self w) !! s = None ->
  exists w1,
    resolve_thread uuid4 (Some s) w = (Ok (uuid4 (draws w)), w1)
    /\ session_ids (self w1) !! s = Some (uuid4 (draws w))
    /\ forall r w',
         process_message uuid4 message (Some s) w = (r, w') ->
         (exists rest,
             trace w' = trace w ++ [EvUuid4 (uuid4 (draws w));
                                    EvStore s (uuid4 (draws w));
                                    EvInvoke message (uuid4 (draws w))] ++ rest)
         /\ self w' = self w1
         /\ session_ids (self w') !! s = Some (uuid4 (draws w))
         /\ (forall e, fst (ainvoke g message (uuid4 (draws w)) (engine w1)) = Raise e ->
                       isinstance_Exception e = true -> r = Ok failure_reply)
         /\ resolve_thread uuid4 (Some s) w' = (Ok (uuid4 (draws w)), w')
         /\ forall message2, exists rest2,
              trace (snd (process_message uuid4 message2 (Some s) w'))
                = trace w' ++ EvInvoke message2 (uuid4 (draws w)) :: rest2.
Proof.
  intros Hg Hs Hnew.
  pose proof (resolve_new w s Hs Hnew) as Hr.
  eexists. split; [exact Hr|].
  split; [apply lookup_insert_eq|].
  intros r w' Hrun.
  destruct (ainvoke g message (uuid4 (draws w)) (engine w)) as [outcome e'] eqn:Hcall.
  rewrite (process_message_configured w g message (Some s) _ _ outcome e' Hg Hr Hcall)
    in Hrun.
  match type of Hrun with EventLoop.resume _ ?w2 = _ =>
    destruct (resume_frame w2 outcome)
      as (Hself & Hdraws & Hengine & rest & Htrace & _);
    set (wi := w2) in *
  end.
  rewrite Hrun in Hself, Hdraws, Hengine, Htrace. simpl in Hself, Htrace.
  assert (Hl' : session_ids (self w') !! s = Some (uuid4 (draws w))).
  { rewrite Hself. apply lookup_insert_eq. }
  assert (Hg' : agent (self w') = Some g).
  { rewrite Hself. exact Hg. }
  assert (Hr' : resolve_thread uuid4 (Some s) w' = (Ok (uuid4 (draws w)), w')).
  { apply resolve_known; [exact Hs | apply uuid4_nonempty | exact Hl']. }
  split; [|split; [|split; [|split; [|split]]]].
  - exists rest. rewrite Htrace. rewrite <- !app_assoc. reflexivity.
  - exact Hself.
  - exact Hl'.
  - intros e Hraise He. simpl in Hraise. rewrite Hcall in Hraise.
    simpl in Hraise. subst outcome.
    rewrite (resume_raised wi e He) in Hrun. congruence.
  - exact Hr'.
  - intros message2.
    destruct (ainvoke g message2 (uuid4 (draws w)) (engine w')) as [outcome2 e2] eqn:Hcall2.
    rewrite (process_message_configured w' g message2 (Some s) _ _ outcome2 e2
               Hg' Hr' Hcall2).
    match goal with |- context [EventLoop.resume _ ?w2] =>
      destruct (resume_frame w2 outcome2) as (_ & _ & _ & rest2 & Htrace2 & _)
    end.
    exists rest2. rewrite Htrace2. simpl. rewrite <- app_assoc. reflexivity.
Qed.

(** Construction without the configuration leaves the agent without
    engine, and draws, maps and invokes nothing. *)
Lemma init_unconfigured getenv AzureChatOpenAI create_react_agent (e0 : E) :
  opt_truthy (getenv "AZURE_OPENAI_ENDPOINT") = false
  \/ opt_truthy (getenv "AZURE_OPENAI_DEPLOYMENT_NAME") = false ->
  __init__ getenv AzureChatOpenAI create_react_agent e0 =
    (Ok tt,
     emit (EvLog "Azure OpenAI configuration missing for LangGraph agent")
       (blank e0)).
Proof.
  intros Hmissing. unfold __init__, init_body.
  destruct Hmissing as [-> | ->]; [reflexivity|].
  rewrite orb_true_r. reflexivity.
Qed.

(** However construction ends, the agent starts with an empty session
    map and an empty table of locks. *)
Lemma init_sessions_empty getenv AzureChatOpenAI create_react_agent (e0 : E) :
  session_ids (self (snd (__init__ getenv AzureChatOpenAI create_react_agent e0))) = ∅
  /\ session_locks (self (snd (__init__ getenv AzureChatOpenAI create_react_agent e0))) = ∅.
Proof.
  unfold __init__, init_body.
  destruct (negb (opt_truthy (getenv "AZURE_OPENAI_ENDPOINT"))
            || negb (opt_truthy (getenv "AZURE_OPENAI_DEPLOYMENT_NAME")));
    [split; reflexivity|].
  unfold try_except_st, mbind, StErr_bind, lift.
  destruct (AzureChatOpenAI _ _) as [client|e]; simpl.
  - destruct (create_react_agent client) as [g|e]; simpl.
    + split; reflexivity.
    + destruct (isinstance_Exception e); split; reflexivity.
  - destruct (isinstance_Exception e); split; reflexivity.
Qed.

(** C7: when the required configuration is absent at construction, the
    agent is built without engine, and from then on [process_message]
    answers every message, with every session, with the fixed
    not-configured reply, whose role is ["assistant"]; it does not
    raise, and the call changes nothing: no identifier is drawn, no
    mapping written, the engine (and with it every tool) not invoked. *)
Theorem unconfigured_agent_replies
    getenv AzureChatOpenAI create_react_agent (e0 : E) :
  opt_truthy (getenv "AZURE_OPENAI_ENDPOINT") = false
  \/ opt_truthy (getenv "AZURE_OPENAI_DEPLOYMENT_NAME") = false ->
  exists w0,
    __init__ getenv AzureChatOpenAI create_react_agent e0 = (Ok tt, w0)
    /\ agent (self w0) = None
    /\ forall w, rtc (step uuid4) w0 w ->
         forall message session_id,
           process_message uuid4 message session_id w
             = (Ok not_configured_reply, w)
           /\ Role_value (role not_configured_reply) = "assistant".
Proof.
  intros Hmissing. eexists. split; [apply init_unconfigured; exact Hmissing|].
  split; [reflexivity|].
  intros w Hsteps message session_id. split; [|reflexivity].
  apply process_message_unconfigured.
  eapply unconfigured_stays; [|exact Hsteps]. reflexivity.
Qed.

End Facts.

(** C7 on an environment that lacks the deployment name: the turn of the
    agent it builds, after an earlier turn, leaves the world as it was. *)
Lemma unconfigured_agent_replies_witness :
  exists w0,
    __init__ Sample.getenv_missing Sample.AzureChatOpenAI
      Sample.create_react_agent 0 = (Ok tt, w0)
    /\ process_message Sample.uuid4 "hello" (Some "s1")
         (snd (process_message Sample.uuid4 "first" None w0))
       = (Ok not_configured_reply,
          snd (process_message Sample.uuid4 "first" None w0)).
Proof.
  destruct (unconfigured_agent_replies Sample.uuid4 Sample.getenv_missing
              Sample.AzureChatOpenAI Sample.create_react_agent 0)
    as (w0 & Hinit & _ & Hturns).
  - right. reflexivity.
  - exists w0. split; [exact Hinit|].
    apply (Hturns (snd (process_message Sample.uuid4 "first" None w0))).
    apply rtc_once. left. exists "first", None. reflexivity.
Defined.

(** C2, as the claim states it: the empty string is a session identifier
    for which two resolutions in a row return two different thread
    identifiers, and no mapping is written. *)
Lemma empty_session_not_stable :
  (exists w1 w2,
      resolve_thread Sample.uuid4 (Some "") (Sample.configured Sample.echo)
        = (Ok "thread-0", w1)
      /\ session_ids (self w1) !! "" = None
      /\ resolve_thread Sample.uuid4 (Some "") w1 = (Ok "thread-1", w2)
      /\ "thread-0" <> "thread-1")
  /\ ~ (forall s t w1,
         resolve_thread Sample.uuid4 (Some s) (Sample.configured Sample.echo)
           = (Ok t, w1) ->
         fst (resolve_thread Sample.uuid4 (Some s) w1) = Ok t).
Proof.
  split.
  - eexists _, _. split; [reflexivity|]. split; [reflexivity|].
    split; [reflexivity | discriminate].
  - intros H. specialize (H "" "thread-0" _ eq_refl). discriminate H.
Qed.

(** C2 on the sessions ["s1"] and ["s2"]: after a turn of ["s2"], the
    resolution for ["s1"] returns the identifier it got first, and the
    two sessions have different identifiers. *)
Lemma session_threads_stable_injective_witness :
  let w0 := Sample.configured Sample.echo in
  let w1 := snd (resolve_thread Sample.uuid4 (Some "s1") w0) in
  let w2 := snd (process_message Sample.uuid4 "hello" (Some "s2") w1) in
  resolve_thread Sample.uuid4 (Some "s1") w2 = (Ok "thread-0", w2)
  /\ "thread-0" <> "thread-1".
Proof.
  intros w0 w1 w2.
  assert (Hturn : rtc (step Sample.uuid4) w1 w2).
  { apply rtc_once. left. exists "hello", (Some "s2"). reflexivity. }
  destruct (session_threads_stable_injective Sample.uuid4
              sample_uuid4_inj sample_uuid4_nonempty w0 w0 eq_refl (rtc_refl _ _))
    as [Hstable Hinj].
  split.
  - apply (proj2 (Hstable "s1" "thread-0" w1 ltac:(discriminate) eq_refl) w2 Hturn).
  - apply (Hinj "s1" "s2" "thread-0" "thread-1" w1 w2
             (snd (resolve_thread Sample.uuid4 (Some "s2") w2)));
      try discriminate; try reflexivity.
    exact Hturn.
Defined.

(** C10, as the claim states it: a failed turn with the empty string as
    its session identifier, unknown before, records no mapping, and the
    next turn with the same session identifier runs on another thread. *)
Lemma empty_session_not_recorded :
  let w := Sample.configured Sample.failing in
  let w' := snd (process_message Sample.uuid4 "hello" (Some "") w) in
  session_ids (self w) !! "" = None
  /\ fst (process_message Sample.uuid4 "hello" (Some "") w) = Ok failure_reply
  /\ session_ids (self w') !! "" = None
  /\ trace w' = [EvUuid4 "thread-0"; EvInvoke "hello" "thread-0";
                 EvLog "Error processing message with LangGraph agent"]
  /\ trace (snd (process_message Sample.uuid4 "again" (Some "") w'))
     = trace w' ++ [EvUuid4 "thread-1"; EvInvoke "again" "thread-1";
                    EvLog "Error processing message with LangGraph agent"].
Proof. repeat split. Qed.

(** C10 on a failing engine and the session ["s1"]. *)
Lemma failed_turn_keeps_mapping_witness :
  let w := Sample.configured Sample.failing in
  let w' := snd (process_message Sample.uuid4 "hello" (Some "s1") w) in
  fst (process_message Sample.uuid4 "hello" (Some "s1") w) = Ok failure_reply
  /\ session_ids (self w') !! "s1" = Some "thread-0"
  /\ exists rest2,
       trace (snd (process_message Sample.uuid4 "again" (Some "s1") w'))
         = trace w' ++ EvInvoke "again" "thread-0" :: rest2.
Proof.
  intros w w'.
  destruct (failed_turn_keeps_mapping Sample.uuid4 sample_uuid4_nonempty
              w Sample.failing "hello" "s1" eq_refl ltac:(discriminate) eq_refl)
    as (w1 & Hr & _ & Hturn).
  destruct (Hturn (fst (process_message Sample.uuid4 "hello" (Some "s1") w)) w'
              eq_refl)
    as (_ & _ & Hkept & Hfail & _ & Hlater).
  split; [|split].
  - apply (Hfail (Exn "RuntimeError" "model provider unavailable"));
      [|reflexivity].
    injection Hr as <-. reflexivity.
  - exact Hkept.
  - exact (Hlater "again").
Defined.

(** A turn with an engine that echoes: the reply, and what the turn did. *)
Example echo_turn :
  let w' := snd (process_message Sample.uuid4 "hello" (Some "s1")
                   (Sample.configured Sample.echo)) in
  fst (process_message Sample.uuid4 "hello" (Some "s1") (Sample.configured Sample.echo))
    = Ok {| role := ASSISTANT; content := "Echo: hello" |}
  /\ trace w' = [EvUuid4 "thread-0"; EvStore "s1" "thread-0"; EvInvoke "hello" "thread-0"]
  /\ session_ids (self w') !! "s1" = Some "thread-0"
  /\ session_locks (self w') = ∅.
Proof. repeat split. Qed.

(** A turn whose result holds no sequence of messages: the reply is the
    fallback string, and the extractor's record is in the log. *)
Example malformed_result_turn :
  let r := process_message Sample.uuid4 "hello" None
             (Sample.configured Sample.malformed) in
  fst r = Ok {| role := ASSISTANT; content := Extractor.fallback_text |}
  /\ trace (snd r)
     = [EvUuid4 "thread-0"; EvInvoke "hello" "thread-0";
        EvLog "Failed to extract assistant text from result"].
Proof. repeat split. Qed.

(** Without a session, two resolutions give two identifiers. *)
Example no_session_no_continuity :
  let w0 := Sample.configured Sample.echo in
  let w1 := snd (resolve_thread Sample.uuid4 None w0) in
  fst (resolve_thread Sample.uuid4 None w0) = Ok "thread-0"
  /\ fst (resolve_thread Sample.uuid4 None w1) = Ok "thread-1"
  /\ session_ids (self w1) = ∅.
Proof. repeat split. Qed.

(** Construction with the full configuration builds the engine. *)
Example init_configured :
  let r := __init__ Sample.getenv_full Sample.AzureChatOpenAI
             Sample.create_react_agent 0 in
  fst r = Ok tt
  /\ agent (self (snd r)) = Some Sample.echo
  /\ llm (self (snd r)) = Some ("https://example.openai.azure.com/", "gpt-4o")
  /\ session_ids (self (snd r)) = ∅.
Proof. repeat split. Qed.

(** C1, as the claim states it: a call that is cancelled while the engine
    is awaited raises [CancelledError] out of [process_message]; the
    [except Exception] clause does not catch it. *)
Lemma cancelled_call_propagates :
  fst (process_message Sample.uuid4 "hello" (Some "s1")
         (Sample.configured Sample.cancelled))
    = Raise (BaseExn "CancelledError" "")
  /\ ~ (forall (w : World nat) message session_id,
         exists reply,
           fst (process_message Sample.uuid4 message session_id w) = Ok reply
           /\ role reply = ASSISTANT).
Proof.
  split; [reflexivity|].
  intros H.
  destruct (H (Sample.configured Sample.cancelled) "hello" (Some "s1"))
    as (reply & Hreply & _).
  discriminate Hreply.
Qed.

(** C1 on an engine whose call fails with a [RuntimeError]. *)
Lemma process_message_replies_witness :
  exists reply w',
    process_message Sample.uuid4 "hello" (Some "s1")
      (Sample.configured Sample.failing) = (Ok reply, w')
    /\ Role_value (role reply) = "assistant"
    /\ reply = failure_reply.
Proof.
  destruct (process_message_replies Sample.uuid4
              (Sample.configured Sample.failing) "hello" (Some "s1"))
    as (reply & w' & Hrun & _ & Hrole & Hfail & _).
  - intros g t st e [= <-] [= <-]. reflexivity.
  - exists reply, w'. split; [exact Hrun|]. split; [exact Hrole|].
    eapply (Hfail Sample.failing); reflexivity.
Defined.

End OrchestratorFacts.

(** ** Overlapping turns *)

Module EventLoopFacts.
Import Orchestrator EventLoop OrchestratorFacts.

Lemma stores_app (sid : string) (a b : list Event) :
  stores sid (a ++ b) = stores sid a ++ stores sid b.
Proof.
  induction a as [|ev a IH]; [reflexivity|].
  destruct ev; simpl; try exact IH.
  destruct (String.eqb session_id sid); simpl; [f_equal|]; exact IH.
Qed.

Lemma awaits_other {E : Type} (g : CompiledAgent E) (message : string)
    (session_id : option string) (t sid : string) :
  session_id <> Some sid ->
  awaits sid (Suspended g message session_id t) = None.
Proof.
  intros Hne. destruct session_id as [s'|]; [|reflexivity]. simpl.
  destruct (String.eqb_spec s' sid) as [-> | _]; [contradiction | reflexivity].
Qed.

Lemma awaits_same {E : Type} (g : CompiledAgent E) (message t sid : string) :
  awaits sid (Suspended g message (Some sid) t) = Some t.
Proof. simpl. rewrite String.eqb_refl. reflexivity. Qed.

Section Facts.
Context {E : Type} (uuid4 : nat -> string).
Hypothesis uuid4_nonempty : forall n, uuid4 n <> "".
Implicit Types (w : World E) (pool : list (@Coroutine E)).

(** What a resolution does to the entry of the session [sid] and to the
    mappings written for it, seen from a state in which the entry is
    absent or not empty. *)
Lemma resolve_effect w session_id sid t w1 :
  sid <> "" ->
  resolve_thread uuid4 session_id w = (Ok t, w1) ->
  (session_ids (self w) !! sid = None
   \/ exists t0, t0 <> "" /\ session_ids (self w) !! sid = Some t0) ->
  exists added,
    trace w1 = trace w ++ added
    /\ ((session_id = Some sid
         /\ session_ids (self w) !! sid = None
         /\ session_ids (self w1) !! sid = Some t
         /\ t <> "" /\ stores sid added = [t])
        \/ (session_id = Some sid
            /\ session_ids (self w) !! sid = Some t
            /\ session_ids (self w1) !! sid = Some t
            /\ stores sid added = [])
        \/ (session_id <> Some sid
            /\ session_ids (self w1) !! sid = session_ids (self w) !! sid
            /\ stores sid added = [])).
Proof.
  intros Hsid Hr Hentry.
  destruct session_id as [s|].
  2: { rewrite resolve_anonymous in Hr by tauto. injection Hr as <- <-.
       eexists. split; [reflexivity|]. right; right.
       split; [discriminate | split; reflexivity]. }
  destruct (String.eqb_spec s "") as [-> | Hs].
  { rewrite resolve_anonymous in Hr by tauto. injection Hr as <- <-.
    eexists. split; [reflexivity|]. right; right.
    split; [congruence | split; reflexivity]. }
  destruct (resolve_session uuid4 w s Hs) as [(t' & Ht' & Hl & Hr') | (Hl & Hr')];
    rewrite Hr' in Hr; injection Hr as <- <-.
  - exists []. split; [symmetry; apply app_nil_r|].
    destruct (decide (s = sid)) as [-> | Hne].
    + right; left. repeat split; assumption.
    + right; right. split; [congruence | split; reflexivity].
  - eexists. split; [simpl; rewrite <- app_assoc; reflexivity|].
    destruct (decide (s = sid)) as [-> | Hne].
    + left. split; [reflexivity|].
      assert (Hnone : session_ids (self w) !! sid = None).
      { destruct Hl as [Hl | Hl]; [exact Hl|].
        destruct Hentry as [Hn | (t0 & Ht0 & Hsome)]; [exact Hn|].
        rewrite Hl in Hsome. injection Hsome as <-. contradiction. }
      split; [exact Hnone|]. split; [apply lookup_insert_eq|].
      split; [apply uuid4_nonempty|].
      simpl. rewrite String.eqb_refl. reflexivity.
    + right; right. split; [congruence|].
      split; [apply lookup_insert_ne; exact Hne|].
      simpl. destruct (String.eqb_spec s sid); [contradiction | reflexivity].
Qed.

Lemma settled_entry sid base pool w :
  settled sid base pool w ->
  session_ids (self w) !! sid = None
  \/ exists t0, t0 <> "" /\ session_ids (self w) !! sid = Some t0.
Proof.
  intros (new & _ & [(Hn & _) | (t & Ht & Hl & _)]); [left; exact Hn|].
  right. exists t. split; assumption.
Qed.

(** A coroutine that is not at its [await] for [sid] can take any place
    in the pool. *)
Lemma settled_place sid base pool w i c :
  awaits sid c = None ->
  settled sid base pool w -> settled sid base (<[i := c]> pool) w.
Proof.
  intros Hc (new & Htrace & [(Hn & Hs & Hpool) | (t & Ht & Hl & Hs & Hpool)]);
    exists new; (split; [exact Htrace|]).
  - left. repeat split; try assumption. apply Forall_insert; assumption.
  - right. exists t. repeat split; try assumption.
    apply Forall_insert; [assumption | left; exact Hc].
Qed.

(** The state may change in what the invariant does not read. *)
Lemma settled_log sid base pool w w' rest :
  self w' = self w -> trace w' = trace w ++ rest -> stores sid rest = [] ->
  settled sid base pool w -> settled sid base pool w'.
Proof.
  intros Hself Htrace Hrest (new & Hnew & Hcases).
  exists (new ++ rest). split.
  - rewrite Htrace, Hnew. symmetry. apply app_assoc.
  - rewrite Hself, stores_app, Hrest, app_nil_r. exact Hcases.
Qed.

Lemma start_preserves sid base pool w i message session_id c w' :
  sid <> "" ->
  start uuid4 message session_id w = (c, w') ->
  settled sid base pool w ->
  settled sid base (<[i := c]> pool) w'.
Proof.
  intros Hsid Hstart Hset.
  destruct (agent (self w)) as [g|] eqn:Hg.
  2: { rewrite (start_unconfigured uuid4 w message session_id Hg) in Hstart.
       injection Hstart as <- <-. apply settled_place; [reflexivity | exact Hset]. }
  destruct (resolve_ok uuid4 w session_id) as (t & w1 & Hr).
  rewrite (start_configured uuid4 w g message session_id t w1 Hg Hr) in Hstart.
  injection Hstart as <- <-.
  destruct (resolve_effect w session_id sid t w1 Hsid Hr
              (settled_entry _ _ _ _ Hset))
    as (added & Htrace & Hcases).
  destruct Hset as (new & Hnew & Hinv).
  exists (new ++ added ++ [EvInvoke message t]). split.
  { simpl. rewrite Htrace, Hnew. rewrite <- !app_assoc. reflexivity. }
  rewrite !stores_app. simpl. rewrite app_nil_r.
  destruct Hcases as [(-> & Hn & Hl1 & Ht & Hs) | [(-> & Hl & Hl1 & Hs) | (Hne & Hl1 & Hs)]];
    rewrite Hs.
  - (* first request of the session: the mapping is written *)
    destruct Hinv as [(_ & Hs0 & Hpool) | (t0 & _ & Hl0 & _)]; [|congruence].
    right. exists t. rewrite Hs0. repeat split; try assumption.
    apply Forall_insert.
    + eapply Forall_impl; [exact Hpool|]. intros c Hc. left. exact Hc.
    + right. apply awaits_same.
  - (* a later request of the session: the mapping is read *)
    destruct Hinv as [(Hn & _) | (t0 & Ht0 & Hl0 & Hs0 & Hpool)]; [congruence|].
    assert (t0 = t) as -> by congruence.
    right. exists t. rewrite app_nil_r. repeat split; try assumption.
    apply Forall_insert; [exact Hpool|]. right. apply awaits_same.
  - (* a request of another session, or of none *)
    rewrite app_nil_r.
    pose proof (awaits_other g message session_id t sid Hne) as Hc.
    destruct Hinv as [(Hn & Hs0 & Hpool) | (t0 & Ht0 & Hl0 & Hs0 & Hpool)].
    + left. rewrite Hl1. repeat split; try assumption.
      apply Forall_insert; assumption.
    + right. exists t0. rewrite Hl1. repeat split; try assumption.
      apply Forall_insert; [assumption | left; exact Hc].
Qed.

Lemma resume_preserves sid base pool w i outcome e' r w' :
  resume outcome (set_engine e' w) = (r, w') ->
  settled sid base pool w ->
  settled sid base (<[i := Finished r]> pool) w'.
Proof.
  intros Hresume Hset.
  destruct (resume_frame (set_engine e' w) outcome)
    as (Hself & _ & _ & rest & Htrace & Hrest).
  rewrite Hresume in Hself, Htrace. simpl in Hself, Htrace.
  apply settled_place; [reflexivity|].
  apply (settled_log sid base pool w w' rest Hself Htrace); [|exact Hset].
  destruct Hrest as [texts ->].
  clear Htrace. induction texts as [|text texts IH]; [reflexivity | exact IH].
Qed.

Lemma sched_preserves sid base pool w pool' w' :
  sid <> "" ->
  sched uuid4 (pool, w) (pool', w') ->
  settled sid base pool w -> settled sid base pool' w'.
Proof.
  intros Hsid Hsched Hset. inversion Hsched; subst.
  - destruct Hset as (new & Htrace & [(Hn & Hs & Hpool) | (t & Ht & Hl & Hs & Hpool)]);
      exists new; (split; [exact Htrace|]).
    + left. repeat split; try assumption.
      apply Forall_app. split; [exact Hpool | repeat constructor].
    + right. exists t. repeat split; try assumption.
      apply Forall_app. split; [exact Hpool|].
      constructor; [left; reflexivity | constructor].
  - eapply start_preserves; eassumption.
  - eapply resume_preserves; eassumption.
Qed.

Lemma run_preserves sid base (x y : list (@Coroutine E) * World E) :
  sid <> "" ->
  rtc (sched uuid4) x y ->
  settled sid base (fst x) (snd x) -> settled sid base (fst y) (snd y).
Proof.
  intros Hsid Hrun. induction Hrun as [|[p1 w1] [p2 w2] z Hstep _ IH]; [exact id|].
  intros Hset. apply IH. exact (sched_preserves sid base _ _ _ _ Hsid Hstep Hset).
Qed.

(** C9, amended: however the turns of overlapping requests interleave,
    for a session identifier that is not empty and not yet mapped at
    most one mapping is ever written, and every request for it that
    has reached its [await] holds the identifier of that mapping, so
    any two of them hold the same one.  (The read, the check and the
    write of lines 210 to 213 are not separated by an [await]; the
    table of locks is never used.  The empty session identifier is
    treated as no session.) *)
Theorem one_thread_per_session sid pool0 w0 pool w :
  sid <> "" ->
  session_ids (self w0) !! sid = None ->
  Forall (fun c => awaits sid c = None) pool0 ->
  rtc (sched uuid4) (pool0, w0) (pool, w) ->
  exists new,
    trace w = trace w0 ++ new
    /\ length (stores sid new) <= 1
    /\ (forall c t, c ∈ pool -> awaits sid c = Some t ->
          session_ids (self w) !! sid = Some t /\ stores sid new = [t])
    /\ (forall c1 c2 t1 t2, c1 ∈ pool -> c2 ∈ pool ->
          awaits sid c1 = Some t1 -> awaits sid c2 = Some t2 -> t1 = t2).
Proof.
  intros Hsid Hnew Hpool0 Hrun.
  assert (Hset : settled sid (trace w0) pool w).
  { apply (run_preserves sid (trace w0) (pool0, w0) (pool, w) Hsid Hrun).
    exists []. split; [symmetry; apply app_nil_r|].
    left. repeat split; assumption. }
  destruct Hset as (new & Htrace & [(Hn & Hs & Hpool) | (t & Ht & Hl & Hs & Hpool)]);
    exists new; (split; [exact Htrace|]); rewrite Hs; (split; [simpl; lia|]).
  - rewrite Forall_forall in Hpool. split.
    + intros c t Hc Hawaits. rewrite (Hpool c Hc) in Hawaits. discriminate.
    + intros c1 c2 t1 t2 Hc1 _ Hawaits. rewrite (Hpool c1 Hc1) in Hawaits.
      discriminate.
  - rewrite Forall_forall in Hpool.
    assert (Hheld : forall c t', c ∈ pool -> awaits sid c = Some t' -> t' = t).
    { intros c t' Hc Hawaits. destruct (Hpool c Hc) as [H | H]; congruence. }
    split.
    + intros c t' Hc Hawaits. rewrite (Hheld c t' Hc Hawaits).
      split; [exact Hl | reflexivity].
    + intros c1 c2 t1 t2 Hc1 Hc2 H1 H2.
      rewrite (Hheld c1 t1 Hc1 H1), (Hheld c2 t2 Hc2 H2). reflexivity.
Qed.

End Facts.

(** Two requests in flight for one session, both run to their [await]. *)
Lemma two_starts (session_id : option string) :
  let w0 := Sample.configured Sample.echo in
  let w1 := snd (start Sample.uuid4 "a" session_id w0) in
  let w2 := snd (start Sample.uuid4 "b" session_id w1) in
  rtc (sched Sample.uuid4)
    ([Created "a" session_id; Created "b" session_id], w0)
    ([fst (start Sample.uuid4 "a" session_id w0);
      fst (start Sample.uuid4 "b" session_id w1)], w2).
Proof.
  intros w0 w1 w2.
  apply (rtc_l _ _ ([fst (start Sample.uuid4 "a" session_id w0);
                     Created "b" session_id], w1)).
  { apply (sched_start Sample.uuid4
             [Created "a" session_id; Created "b" session_id] w0 0 "a" session_id
             (fst (start Sample.uuid4 "a" session_id w0)) w1); [reflexivity|].
    unfold w1. destruct (start Sample.uuid4 "a" session_id w0); reflexivity. }
  apply rtc_once.
  apply (sched_start Sample.uuid4
           [fst (start Sample.uuid4 "a" session_id w0); Created "b" session_id]
           w1 1 "b" session_id
           (fst (start Sample.uuid4 "b" session_id w1)) w2); [reflexivity|].
  unfold w2. destruct (start Sample.uuid4 "b" session_id w1); reflexivity.
Qed.

(** C9, as the claim states it: two overlapping first requests that carry
    the empty string as their session identifier reach their [await] with
    two different thread identifiers, and no mapping is stored. *)
Lemma empty_session_forks :
  exists pool w,
    rtc (sched Sample.uuid4)
      ([Created "a" (Some ""); Created "b" (Some "")],
       Sample.configured Sample.echo)
      (pool, w)
    /\ pool = [Suspended Sample.echo "a" (Some "") "thread-0";
               Suspended Sample.echo "b" (Some "") "thread-1"]
    /\ awaits "" (Suspended Sample.echo "a" (Some "") "thread-0") = Some "thread-0"
    /\ awaits "" (Suspended Sample.echo "b" (Some "") "thread-1") = Some "thread-1"
    /\ "thread-0" <> "thread-1"
    /\ session_ids (self w) !! "" = None
    /\ stores "" (trace w) = [].
Proof.
  eexists _, _. split; [exact (two_starts (Some ""))|].
  repeat split. discriminate.
Qed.

(** C9 on two overlapping first requests of the session ["s1"]: one
    mapping is written, and both requests hold its identifier. *)
Lemma one_thread_per_session_witness :
  exists pool w,
    rtc (sched Sample.uuid4)
      ([Created "a" (Some "s1"); Created "b" (Some "s1")],
       Sample.configured Sample.echo)
      (pool, w)
    /\ pool = [Suspended Sample.echo "a" (Some "s1") "thread-0";
               Suspended Sample.echo "b" (Some "s1") "thread-0"]
    /\ session_ids (self w) !! "s1" = Some "thread-0"
    /\ exists new,
         trace w = trace (Sample.configured Sample.echo) ++ new
         /\ length (stores "s1" new) <= 1.
Proof.
  eexists _, _. split; [exact (two_starts (Some "s1"))|].
  split; [reflexivity|].
  destruct (one_thread_per_session Sample.uuid4 sample_uuid4_nonempty "s1"
              [Created "a" (Some "s1"); Created "b" (Some "s1")]
              (Sample.configured Sample.echo) _ _
              ltac:(discriminate) eq_refl ltac:(repeat constructor)
              (two_starts (Some "s1")))
    as (new & Htrace & Hone & Hheld & _).
  split.
  - apply (Hheld (Suspended Sample.echo "b" (Some "s1") "thread-0") "thread-0").
    + apply list_elem_of_further, list_elem_of_here.
    + reflexivity.
  - exists new. split; [exact Htrace | exact Hone].
Defined.

End EventLoopFacts.

(** * Further properties *)

(** ** Result extractor *)

Module ExtractorMore.
Import Extractor ExtractorFacts.

Lemma elem_of_rev (m : PyVal) (l : list PyVal) : m ∈ rev l <-> m ∈ l.
Proof. rewrite !list_elem_of_In. symmetry. apply in_rev. Qed.

(** What the loop returns is the content of a reply it went over. *)
Lemma scan_some (msgs : list PyVal) (c : PyVal) :
  scan msgs = Some c ->
  exists m, m ∈ msgs /\ is_reply m = true /\ c = msg_content m.
Proof.
  induction msgs as [|x msgs IH]; [discriminate|].
  rewrite scan_cons. destruct (is_reply x) eqn:Hx.
  - intros [= <-]. exists x. split; [apply list_elem_of_here|]. split; [exact Hx | reflexivity].
  - intros Hrest. destruct (IH Hrest) as (m & Hm & Hreply & Hc).
    exists m. split; [apply list_elem_of_further; exact Hm|]. split; assumption.
Qed.

(** Once the loop has returned, what follows is not looked at. *)
Lemma scan_found (msgs rest : list PyVal) (c : PyVal) :
  scan msgs = Some c -> scan (msgs ++ rest) = Some c.
Proof.
  induction msgs as [|x msgs IH]; [discriminate|].
  cbn [app]. rewrite !scan_cons. destruct (is_reply x); [exact id | exact IH].
Qed.

Lemma scan_finds (msgs : list PyVal) :
  Exists (fun m => is_reply m = true) msgs -> exists c, scan msgs = Some c.
Proof.
  induction 1 as [x msgs Hx | x msgs _ IH]; rewrite scan_cons.
  - rewrite Hx. eexists. reflexivity.
  - destruct (is_reply x); [eexists; reflexivity | exact IH].
Qed.

(** The extractor invents nothing: what it returns is the fallback string
    or the non-empty content of a message of the transcript that is tagged
    ["ai"] or ["assistant"]. *)
Theorem extract_sound (result v : PyVal) :
  _extract_assistant_text result = Ok v ->
  v = PyStr fallback_text
  \/ exists msgs m,
       transcript result = Some msgs /\ m ∈ msgs
       /\ is_reply m = true /\ v = msg_content m.
Proof.
  destruct (transcript result) as [msgs|] eqn:Ht.
  - rewrite (extract_of_scan _ _ Ht).
    destruct (scan (rev msgs)) as [c|] eqn:Hscan; simpl; intros [= <-].
    + right. destruct (scan_some _ _ Hscan) as (m & Hm & Hreply & Hc).
      exists msgs, m. split; [reflexivity|]. split; [|split; assumption].
      apply (proj1 (elem_of_rev m msgs)). exact Hm.
    + left. reflexivity.
  - rewrite (extract_malformed _ Ht). intros [= <-]. left. reflexivity.
Qed.

Lemma extract_sound_witness :
  PyStr "It is noon." = PyStr fallback_text
  \/ exists msgs m,
       transcript (result_of Sample.mixed_transcript) = Some msgs /\ m ∈ msgs
       /\ is_reply m = true /\ PyStr "It is noon." = msg_content m.
Proof.
  apply (extract_sound (result_of Sample.mixed_transcript) (PyStr "It is noon.")).
  reflexivity.
Defined.

(** The history before the newest reply does not matter: when the
    transcript holds a reply, putting any older messages in front of it
    leaves the extracted content as it is. *)
Theorem extract_ignores_older (older msgs : list PyVal) :
  Exists (fun m => is_reply m = true) msgs ->
  _extract_assistant_text (result_of (older ++ msgs))
    = _extract_assistant_text (result_of msgs).
Proof.
  intros Hreply.
  rewrite (extract_of_scan (result_of (older ++ msgs)) _ eq_refl).
  rewrite (extract_of_scan (result_of msgs) _ eq_refl).
  rewrite rev_app_distr.
  destruct (scan_finds (rev msgs)) as [c Hc].
  { apply Exists_exists. apply Exists_exists in Hreply.
    destruct Hreply as (m & Hm & Hr). exists m. split; [|exact Hr].
    apply (proj2 (elem_of_rev m msgs)). exact Hm. }
  rewrite (scan_found _ (rev older) _ Hc), Hc. reflexivity.
Qed.

Lemma extract_ignores_older_witness :
  _extract_assistant_text
    (result_of ([PyDict [("type", PyStr "ai"); ("content", PyStr "an earlier answer")]]
                ++ Sample.mixed_transcript))
    = _extract_assistant_text (result_of Sample.mixed_transcript).
Proof.
  apply (extract_ignores_older
           [PyDict [("type", PyStr "ai"); ("content", PyStr "an earlier answer")]]
           Sample.mixed_transcript).
  apply Exists_cons_tl, Exists_cons_hd. reflexivity.
Defined.

(** A [messages] entry that is a string or a dict is iterated without
    error, character by character or key by key, and gives the fallback
    string whatever it holds. *)
Theorem extract_messages_not_a_list (d : list (string * PyVal)) (v : PyVal) :
  assoc "messages" d = Some v ->
  (exists s, v = PyStr s) \/ (exists d', v = PyDict d') ->
  extract_body (PyDict d) = Ok None
  /\ _extract_assistant_text (PyDict d) = Ok (PyStr fallback_text).
Proof.
  intros Hd Hv.
  assert (Hseq : exists items,
             sequence_of v = Some items
             /\ Forall (fun x => is_reply x = false) items).
  { destruct Hv as [(s & ->) | (d' & ->)]; eexists; (split; [reflexivity|]);
      apply Forall_map, Forall_forall; intros; reflexivity. }
  destruct Hseq as (items & Hitems & Hnone).
  assert (Ht : transcript (PyDict d) = Some items).
  { simpl. rewrite Hd. exact Hitems. }
  split.
  - rewrite (extract_body_transcript _ _ Ht).
    rewrite scan_none by (apply Forall_rev; exact Hnone). reflexivity.
  - rewrite (extract_of_scan _ _ Ht).
    rewrite scan_none by (apply Forall_rev; exact Hnone). reflexivity.
Qed.

Lemma extract_messages_not_a_list_witness :
  _extract_assistant_text (PyDict [("messages", PyStr "assistant")])
    = Ok (PyStr fallback_text)
  /\ _extract_assistant_text
       (PyDict [("messages", PyDict [("type", PyStr "ai"); ("content", PyStr "x")])])
     = Ok (PyStr fallback_text).
Proof.
  split.
  - apply (extract_messages_not_a_list [("messages", PyStr "assistant")] (PyStr "assistant")).
    + reflexivity.
    + left. eexists. reflexivity.
  - apply (extract_messages_not_a_list
             [("messages", PyDict [("type", PyStr "ai"); ("content", PyStr "x")])]
             (PyDict [("type", PyStr "ai"); ("content", PyStr "x")])).
    + reflexivity.
    + right. eexists. reflexivity.
Defined.



End ExtractorMore.

(** ** Construction and turns *)

Module OrchestratorMore.
Import Orchestrator OrchestratorFacts.

Lemma invocations_app (a b : list Event) :
  invocations (a ++ b) = invocations a ++ invocations b.
Proof.
  induction a as [|ev a IH]; [reflexivity|].
  destruct ev; simpl; try exact IH. f_equal. exact IH.
Qed.

Section More.
Context {E : Type} (uuid4 : nat -> string).
Implicit Types (w : World E) (g : CompiledAgent E).

(** A thread resolution writes the session map at most, for a session
    that is not empty; it invokes nothing and draws one identifier at
    most. *)
Lemma resolve_frame w session_id :
  let w1 := snd (resolve_thread uuid4 session_id w) in
  llm (self w1) = llm (self w)
  /\ agent (self w1) = agent (self w)
  /\ session_locks (self w1) = session_locks (self w)
  /\ engine w1 = engine w
  /\ invocations (trace w1) = invocations (trace w)
  /\ draws w <= draws w1 <= S (draws w).
Proof.
  unfold resolve_thread. destruct session_id as [s|].
  - destruct (opt_truthy (Some s)).
    + destruct (negb (opt_truthy (session_ids (self w) !! s))); simpl.
      * rewrite !invocations_app, !app_nil_r. repeat split; lia.
      * repeat split; lia.
    + simpl. rewrite invocations_app, app_nil_r. repeat split; lia.
  - simpl. rewrite invocations_app, app_nil_r. repeat split; lia.
Qed.


Lemma resume_invokes_nothing w outcome :
  invocations (trace (snd (EventLoop.resume outcome w))) = invocations (trace w).
Proof.
  destruct (resume_frame w outcome) as (_ & _ & _ & rest & -> & texts & ->).
  rewrite invocations_app.
  assert (Hnone : invocations (map EvLog texts) = []).
  { induction texts as [|text texts IH]; [reflexivity | exact IH]. }
  rewrite Hnone. apply app_nil_r.
Qed.

(** The engine calls of a turn: one, with the message and the resolved
    thread identifier. *)
Lemma turn_invocations w g message session_id t w1 :
  agent (self w) = Some g ->
  resolve_thread uuid4 session_id w = (Ok t, w1) ->
  invocations (trace (snd (process_message uuid4 message session_id w)))
    = invocations (trace w) ++ [(message, t)].
Proof.
  intros Hg Hr.
  destruct (ainvoke g message t (engine w1)) as [outcome e'] eqn:Hcall.
  rewrite (process_message_configured uuid4 w g message session_id t w1 outcome e'
             Hg Hr Hcall).
  rewrite resume_invokes_nothing. simpl. rewrite invocations_app. simpl.
  pose proof (resolve_frame w session_id) as Hf. rewrite Hr in Hf. simpl in Hf.
  destruct Hf as (_ & _ & _ & _ & -> & _). reflexivity.
Qed.

(** A turn on an agent with its engine invokes the engine once, no more
    when the call fails: with the caller's message and the thread
    identifier the resolution returned.  The engine is left as the call
    left it. *)
Theorem turn_invokes_once w g message session_id :
  agent (self w) = Some g ->
  exists t w1,
    resolve_thread uuid4 session_id w = (Ok t, w1)
    /\ invocations (trace (snd (process_message uuid4 message session_id w)))
       = invocations (trace w) ++ [(message, t)]
    /\ engine (snd (process_message uuid4 message session_id w))
       = snd (ainvoke g message t (engine w1)).
Proof.
  intros Hg. destruct (resolve_ok uuid4 w session_id) as (t & w1 & Hr).
  exists t, w1. split; [exact Hr|].
  split; [exact (turn_invocations w g message session_id t w1 Hg Hr)|].
  destruct (ainvoke g message t (engine w1)) as [outcome e'] eqn:Hcall.
  rewrite (process_message_configured uuid4 w g message session_id t w1 outcome e'
             Hg Hr Hcall).
  destruct (resume_frame
              (EventLoop.set_engine e' (emit (EvInvoke message t) w1)) outcome)
    as (_ & _ & -> & _). reflexivity.
Qed.


(** What is not an [Exception] passes through a turn as it was raised:
    the same exception reaches the caller, nothing is logged, and the
    world is what the resolution and the call left. *)
Theorem turn_passes_non_exception w g message session_id t w1 e e' :
  agent (self w) = Some g ->
  resolve_thread uuid4 session_id w = (Ok t, w1) ->
  ainvoke g message t (engine w1) = (Raise e, e') ->
  isinstance_Exception e = false ->
  process_message uuid4 message session_id w
    = (Raise e, EventLoop.set_engine e' (emit (EvInvoke message t) w1)).
Proof.
  intros Hg Hr Hcall He.
  rewrite (process_message_configured uuid4 w g message session_id t w1 (Raise e) e'
             Hg Hr Hcall).
  apply resume_passes. exact He.
Qed.

(** *** What turns never change *)

Lemma step_frame w w' :
  step uuid4 w w' ->
  llm (self w') = llm (self w)
  /\ agent (self w') = agent (self w)
  /\ session_locks (self w') = session_locks (self w)
  /\ draws w <= draws w'.
Proof.
  intros [(message & session_id & <-) | (session_id & <-)].
  - destruct (turn_as_resolution uuid4 w message session_id) as [Hg | [Hself Hdraws]].
    + rewrite (process_message_unconfigured uuid4 w message session_id Hg).
      simpl. split; [reflexivity|]. split; [reflexivity|]. split; [reflexivity | lia].
    + rewrite Hself, Hdraws.
      destruct (resolve_frame w session_id) as (? & ? & ? & _ & _ & ? & _).
      split; [assumption|]. split; [assumption|]. split; assumption.
  - destruct (resolve_frame w session_id) as (? & ? & ? & _ & _ & ? & _).
    split; [assumption|]. split; [assumption|]. split; assumption.
Qed.

Lemma steps_frame w w' :
  rtc (step uuid4) w w' ->
  llm (self w') = llm (self w)
  /\ agent (self w') = agent (self w)
  /\ session_locks (self w') = session_locks (self w)
  /\ draws w <= draws w'.
Proof.
  induction 1 as [|w1 w2 w3 Hstep _ IH].
  - split; [reflexivity|]. split; [reflexivity|]. split; [reflexivity | lia].
  - destruct (step_frame _ _ Hstep) as (Hl & Ha & Hk & Hd).
    destruct IH as (IHl & IHa & IHk & IHd).
    rewrite IHl, IHa, IHk. split; [assumption|]. split; [assumption|].
    split; [assumption | lia].
Qed.

(** Through the life of the process the client, the engine and the table
    of locks of the agent are what construction made them: no turn
    replaces the engine, and no lock is ever created; with the tables
    construction leaves, the table of locks stays empty. *)
Theorem turns_keep_fields getenv AzureChatOpenAI create_react_agent (e0 : E) w :
  rtc (step uuid4) (snd (__init__ getenv AzureChatOpenAI create_react_agent e0)) w ->
  llm (self w) = llm (self (snd (__init__ getenv AzureChatOpenAI create_react_agent e0)))
  /\ agent (self w)
     = agent (self (snd (__init__ getenv AzureChatOpenAI create_react_agent e0)))
  /\ session_locks (self w) = ∅.
Proof.
  intros Hsteps. destruct (steps_frame _ _ Hsteps) as (Hl & Ha & Hk & _).
  split; [exact Hl|]. split; [exact Ha|].
  rewrite Hk. apply init_sessions_empty.
Qed.

Lemma resolve_grows w session_id :
  (forall s, is_Some (session_ids (self w) !! s) ->
             is_Some (session_ids (self (snd (resolve_thread uuid4 session_id w))) !! s))
  /\ (session_ids (self w) !! "" = None ->
      session_ids (self (snd (resolve_thread uuid4 session_id w))) !! "" = None).
Proof.
  assert (Hcases : session_id = None \/ session_id = Some ""
                   \/ exists s, s <> "" /\ session_id = Some s).
  { destruct session_id as [s|]; [|left; reflexivity].
    destruct (String.eqb_spec s "") as [-> | Hs]; [right; left; reflexivity|].
    right; right. exists s. split; [exact Hs | reflexivity]. }
  destruct Hcases as [H | [H | (s & Hs & ->)]].
  1, 2: rewrite (resolve_anonymous uuid4 w session_id) by tauto; simpl; (split; [intros ? Hx; exact Hx | intros Hx; exact Hx]).
  destruct (resolve_ok uuid4 w (Some s)) as (t & w1 & Hr). rewrite Hr. simpl.
  destruct (resolve_records uuid4 w s t w1 Hs Hr) as [Hnew Hothers].
  split.
  - intros s' Hs'. destruct (decide (s' = s)) as [-> | Hne].
    + rewrite Hnew. eexists. reflexivity.
    + rewrite (Hothers s' Hne). exact Hs'.
  - intros Hempty. rewrite (Hothers "" (not_eq_sym Hs)). exact Hempty.
Qed.

(** The session map only grows: a session once mapped stays mapped,
    whatever turns follow and however they end, and the empty string never
    becomes a key. *)
Theorem session_map_grows w w' :
  rtc (step uuid4) w w' ->
  (forall s, is_Some (session_ids (self w) !! s) ->
             is_Some (session_ids (self w') !! s))
  /\ (session_ids (self w) !! "" = None -> session_ids (self w') !! "" = None).
Proof.
  induction 1 as [|w1 w2 w3 Hstep _ IH];
    [split; [intros ? Hx; exact Hx | intros Hx; exact Hx]|].
  assert (Hone : (forall s, is_Some (session_ids (self w1) !! s) ->
                            is_Some (session_ids (self w2) !! s))
                 /\ (session_ids (self w1) !! "" = None ->
                     session_ids (self w2) !! "" = None)).
  { destruct Hstep as [(message & session_id & <-) | (session_id & <-)].
    - destruct (turn_as_resolution uuid4 w1 message session_id) as [Hg | [Hself _]].
      + rewrite (process_message_unconfigured uuid4 w1 message session_id Hg).
        split; [intros ? Hx; exact Hx | intros Hx; exact Hx].
      + rewrite Hself. apply resolve_grows.
    - apply resolve_grows. }
  destruct Hone as [Hkeys Hempty]. destruct IH as [IHkeys IHempty].
  split.
  - intros s Hs. apply IHkeys, Hkeys, Hs.
  - intros H. apply IHempty, Hempty, H.
Qed.

(** A turn without session, or with the empty string as its session,
    writes nothing to the session map: it draws one identifier and the
    engine is invoked with it. *)
Theorem turn_without_session w g message session_id :
  agent (self w) = Some g ->
  session_id = None \/ session_id = Some "" ->
  self (snd (process_message uuid4 message session_id w)) = self w
  /\ draws (snd (process_message uuid4 message session_id w)) = S (draws w)
  /\ invocations (trace (snd (process_message uuid4 message session_id w)))
     = invocations (trace w) ++ [(message, uuid4 (draws w))].
Proof.
  intros Hg Hanon.
  pose proof (resolve_anonymous uuid4 w session_id Hanon) as Hr.
  destruct (ainvoke g message (uuid4 (draws w)) (engine w)) as [outcome e'] eqn:Hcall.
  rewrite (process_message_configured uuid4 w g message session_id _ _ outcome e'
             Hg Hr Hcall).
  rewrite resume_invokes_nothing.
  match goal with |- context [EventLoop.resume _ ?w2] =>
    destruct (resume_frame w2 outcome) as (-> & -> & _)
  end.
  simpl. rewrite !invocations_app. simpl. rewrite app_nil_r.
  repeat split.
Qed.

(** *** Threads of turns without session *)

(** The identifiers mapped from some point on avoid an identifier [k]
    drawn before. *)
Lemma steps_avoid (k : nat) w w' :
  rtc (step uuid4) w w' ->
  k < draws w ->
  (forall s t, session_ids (self w) !! s = Some t ->
               exists n, n <> k /\ t = uuid4 n) ->
  forall s t, session_ids (self w') !! s = Some t ->
              exists n, n <> k /\ t = uuid4 n.
Proof.
  induction 1 as [|w1 w2 w3 Hstep _ IH]; [intros _ Hinv; exact Hinv|].
  intros Hk Hinv. apply IH.
  { destruct (step_frame _ _ Hstep) as (_ & _ & _ & Hd). lia. }
  assert (Hres : forall session_id s t,
             session_ids (self (snd (resolve_thread uuid4 session_id w1))) !! s = Some t ->
             exists n, n <> k /\ t = uuid4 n).
  { intros session_id s t.
    assert (Hcases : session_id = None \/ session_id = Some ""
                     \/ exists s0, s0 <> "" /\ session_id = Some s0).
    { destruct session_id as [s0|]; [|left; reflexivity].
      destruct (String.eqb_spec s0 "") as [-> | Hs0]; [right; left; reflexivity|].
      right; right. exists s0. split; [exact Hs0 | reflexivity]. }
    destruct Hcases as [H | [H | (s0 & Hs0 & ->)]].
    1, 2: rewrite (resolve_anonymous uuid4 w1 session_id) by tauto; apply Hinv.
    destruct (resolve_session uuid4 w1 s0 Hs0) as [(t0 & _ & _ & ->) | (_ & ->)];
      [apply Hinv|].
    simpl. destruct (decide (s0 = s)) as [-> | Hne].
    - rewrite lookup_insert_eq. intros [= <-]. exists (draws w1). split; [lia | reflexivity].
    - rewrite lookup_insert_ne by exact Hne. apply Hinv. }
  destruct Hstep as [(message & session_id & <-) | (session_id & <-)].
  - destruct (turn_as_resolution uuid4 w1 message session_id) as [Hg | [Hself _]].
    + rewrite (process_message_unconfigured uuid4 w1 message session_id Hg). exact Hinv.
    + rewrite Hself. apply Hres.
  - apply Hres.
Qed.

(** The thread of a turn without session is shared with no session: with
    [uuid4] never handing out the same identifier twice, the identifier
    such a resolution returns is mapped to no session at that time and is
    never mapped to one later. *)
Theorem thread_without_session_is_private
    (uuid4_fresh : forall n m, uuid4 n = uuid4 m -> n = m)
    w0 w session_id t w1 w2 :
  session_ids (self w0) = ∅ ->
  rtc (step uuid4) w0 w ->
  session_id = None \/ session_id = Some "" ->
  resolve_thread uuid4 session_id w = (Ok t, w1) ->
  rtc (step uuid4) w1 w2 ->
  forall s t', session_ids (self w2) !! s = Some t' -> t' <> t.
Proof.
  intros Hempty Hsteps Hanon Hr Hlater s t' Hl.
  rewrite (resolve_anonymous uuid4 w session_id Hanon) in Hr.
  injection Hr as <- <-.
  assert (Hok : sessions_ok uuid4 w).
  { apply (steps_preserve uuid4 uuid4_fresh w0 w Hsteps).
    apply sessions_ok_empty. exact Hempty. }
  destruct (steps_avoid (draws w) _ w2 Hlater) with (s := s) (t := t')
    as (n & Hn & ->).
  - simpl. lia.
  - simpl. intros s0 t0 Hl0. destruct (proj1 Hok s0 t0 Hl0) as (n & Hn & ->).
    exists n. split; [lia | reflexivity].
  - exact Hl.
  - intros Heq. apply uuid4_fresh in Heq. contradiction.
Qed.

(** *** Continuity of a session *)

(** Two turns of one session run on one thread: with [uuid4] never
    handing out the same identifier twice, and none empty, the engine is
    invoked with the same thread identifier by a turn of a session that is
    not empty and by every later turn of that session, whatever turns come
    in between and however they end. *)
Theorem session_turns_share_thread
    (uuid4_fresh : forall n m, uuid4 n = uuid4 m -> n = m)
    (uuid4_nonempty : forall n, uuid4 n <> "")
    w0 w g s message1 message2 w2 :
  session_ids (self w0) = ∅ ->
  rtc (step uuid4) w0 w ->
  agent (self w) = Some g ->
  s <> "" ->
  rtc (step uuid4) (snd (process_message uuid4 message1 (Some s) w)) w2 ->
  exists t,
    invocations (trace (snd (process_message uuid4 message1 (Some s) w)))
      = invocations (trace w) ++ [(message1, t)]
    /\ invocations (trace (snd (process_message uuid4 message2 (Some s) w2)))
       = invocations (trace w2) ++ [(message2, t)].
Proof.
  intros Hempty Hsteps Hg Hs Hlater.
  assert (Hok : sessions_ok uuid4 w).
  { apply (steps_preserve uuid4 uuid4_fresh w0 w Hsteps).
    apply sessions_ok_empty. exact Hempty. }
  destruct (turn_as_resolution uuid4 w message1 (Some s)) as [Hnone | [Hself Hdraws]];
    [congruence|].
  destruct (resolve_ok uuid4 w (Some s)) as (t & w1 & Hr).
  rewrite Hr in Hself, Hdraws. simpl in Hself, Hdraws.
  destruct (resolve_records uuid4 w s t w1 Hs Hr) as [Hl _].
  assert (Hok1 : sessions_ok uuid4 w1).
  { pose proof (resolve_preserves uuid4 uuid4_fresh w (Some s) Hok) as H1.
    rewrite Hr in H1. exact H1. }
  set (w' := snd (process_message uuid4 message1 (Some s) w)) in *.
  assert (Hok' : sessions_ok uuid4 w').
  { exact (sessions_ok_frame uuid4 w1 w' Hself Hdraws Hok1). }
  assert (Hl' : session_ids (self w') !! s = Some t) by (rewrite Hself; exact Hl).
  pose proof (steps_keep uuid4 uuid4_fresh uuid4_nonempty w' w2 s t Hlater Hok' Hl')
    as Hl2.
  pose proof (mapped_nonempty uuid4 uuid4_nonempty w' s t Hok' Hl') as Ht.
  pose proof (resolve_known uuid4 w2 s t Hs Ht Hl2) as Hr2.
  assert (Hg2 : agent (self w2) = Some g).
  { destruct (steps_frame w' w2 Hlater) as (_ & -> & _).
    rewrite Hself.
    pose proof (resolve_frame w (Some s)) as Hf. rewrite Hr in Hf. simpl in Hf.
    destruct Hf as (_ & -> & _). exact Hg. }
  exists t. split.
  - exact (turn_invocations w g message1 (Some s) t w1 Hg Hr).
  - exact (turn_invocations w2 g message2 (Some s) t w2 Hg2 Hr2).
Qed.

(** *** Construction *)

(** Construction gives the agent its engine exactly when both settings
    are present and not empty, the client is built and the agent is
    compiled over it. *)
Theorem init_builds_engine_iff
    getenv AzureChatOpenAI create_react_agent (e0 : E) g :
  agent (self (snd (__init__ getenv AzureChatOpenAI create_react_agent e0))) = Some g
  <-> opt_truthy (getenv "AZURE_OPENAI_ENDPOINT") = true
      /\ opt_truthy (getenv "AZURE_OPENAI_DEPLOYMENT_NAME") = true
      /\ exists client,
           AzureChatOpenAI (default "" (getenv "AZURE_OPENAI_ENDPOINT"))
             (default "" (getenv "AZURE_OPENAI_DEPLOYMENT_NAME")) = Ok client
           /\ create_react_agent client = Ok g.
Proof.
  unfold __init__, init_body.
  destruct (opt_truthy (getenv "AZURE_OPENAI_ENDPOINT")); simpl;
    [|split; [discriminate | intros (H & _); discriminate]].
  destruct (opt_truthy (getenv "AZURE_OPENAI_DEPLOYMENT_NAME")); simpl;
    [|split; [discriminate | intros (_ & H & _); discriminate]].
  unfold try_except_st, mbind, StErr_bind, lift.
  destruct (AzureChatOpenAI _ _) as [client|e]; simpl.
  - destruct (create_react_agent client) as [g'|e] eqn:Hagent; simpl.
    + split.
      * intros [= <-]. split; [reflexivity|]. split; [reflexivity|].
        exists client. split; [reflexivity | exact Hagent].
      * intros (_ & _ & client' & [= <-] & Hg). rewrite Hagent in Hg.
        injection Hg as <-. reflexivity.
    + split.
      * destruct (isinstance_Exception e); discriminate.
      * intros (_ & _ & client' & [= <-] & Hg). rewrite Hagent in Hg. discriminate.
  - split.
    + destruct (isinstance_Exception e); discriminate.
    + intros (_ & _ & client' & [=] & _).
Qed.

(** Construction swallows every [Exception]: when the client and the
    agent constructions raise nothing else, [__init__] returns, whatever
    the environment holds; a failed client construction leaves the agent
    without client and without engine, and a failed compilation leaves it
    with its client and without engine. *)
Theorem init_swallows_exceptions
    getenv AzureChatOpenAI create_react_agent (e0 : E) :
  (forall endpoint deployment e,
      AzureChatOpenAI endpoint deployment = Raise e -> isinstance_Exception e = true) ->
  (forall client e,
      create_react_agent client = Raise e -> isinstance_Exception e = true) ->
  let w0 := snd (__init__ getenv AzureChatOpenAI create_react_agent e0) in
  fst (__init__ getenv AzureChatOpenAI create_react_agent e0) = Ok tt
  /\ draws w0 = 0
  /\ invocations (trace w0) = []
  /\ (opt_truthy (getenv "AZURE_OPENAI_ENDPOINT") = true ->
      opt_truthy (getenv "AZURE_OPENAI_DEPLOYMENT_NAME") = true ->
      (forall e,
          AzureChatOpenAI (default "" (getenv "AZURE_OPENAI_ENDPOINT"))
            (default "" (getenv "AZURE_OPENAI_DEPLOYMENT_NAME")) = Raise e ->
          llm (self w0) = None /\ agent (self w0) = None)
      /\ (forall client e,
             AzureChatOpenAI (default "" (getenv "AZURE_OPENAI_ENDPOINT"))
               (default "" (getenv "AZURE_OPENAI_DEPLOYMENT_NAME")) = Ok client ->
             create_react_agent client = Raise e ->
             llm (self w0) = Some client /\ agent (self w0) = None)).
Proof.
  intros Hclient Hagent w0. subst w0. unfold __init__, init_body.
  destruct (opt_truthy (getenv "AZURE_OPENAI_ENDPOINT")); simpl;
    [|split; [reflexivity|]; split; [reflexivity|]; split; [reflexivity|];
      intros H; discriminate H].
  destruct (opt_truthy (getenv "AZURE_OPENAI_DEPLOYMENT_NAME")); simpl;
    [|split; [reflexivity|]; split; [reflexivity|]; split; [reflexivity|];
      intros _ H; discriminate H].
  unfold try_except_st, mbind, StErr_bind, lift.
  destruct (AzureChatOpenAI _ _) as [client|e] eqn:Hc; simpl.
  - destruct (create_react_agent client) as [g|e] eqn:Hg; simpl.
    + split; [reflexivity|]. split; [reflexivity|]. split; [reflexivity|].
      intros _ _. split.
      * intros e' [=].
      * intros client' e' [= <-] Hg'. rewrite Hg in Hg'. discriminate.
    + rewrite (Hagent client e Hg). simpl.
      split; [reflexivity|]. split; [reflexivity|]. split; [reflexivity|].
      intros _ _. split.
      * intros e' [=].
      * intros client' e' [= <-] _. split; reflexivity.
  - rewrite (Hclient _ _ e Hc). simpl.
    split; [reflexivity|]. split; [reflexivity|]. split; [reflexivity|].
    intros _ _. split.
    + intros e' _. split; reflexivity.
    + intros client' e' [=].
Qed.

End More.

Lemma turn_invokes_once_witness :
  exists t,
    invocations (trace (snd (process_message Sample.uuid4 "hello" (Some "s1")
                               (Sample.configured Sample.failing))))
      = [("hello", t)]
    /\ engine (snd (process_message Sample.uuid4 "hello" (Some "s1")
                      (Sample.configured Sample.failing))) = 1.
Proof.
  destruct (turn_invokes_once Sample.uuid4 (Sample.configured Sample.failing)
              Sample.failing "hello" (Some "s1") eq_refl)
    as (t & w1 & Hr & Hinv & Hengine).
  exists t. split; [exact Hinv|].
  rewrite Hengine. injection Hr as <- <-. reflexivity.
Defined.


Lemma turn_passes_non_exception_witness :
  process_message Sample.uuid4 "hello" (Some "s1") (Sample.configured Sample.cancelled)
    = (Raise (BaseExn "CancelledError" ""),
       EventLoop.set_engine 1
         (emit (EvInvoke "hello" "thread-0")
            (snd (resolve_thread Sample.uuid4 (Some "s1")
                    (Sample.configured Sample.cancelled))))).
Proof.
  apply (turn_passes_non_exception Sample.uuid4 (Sample.configured Sample.cancelled)
           Sample.cancelled "hello" (Some "s1") "thread-0"); reflexivity.
Defined.

Lemma turns_keep_fields_witness :
  let w0 := snd (__init__ Sample.getenv_full Sample.AzureChatOpenAI
                   Sample.create_react_agent 0) in
  let w := snd (process_message Sample.uuid4 "hello" (Some "s1") w0) in
  llm (self w) = llm (self w0) /\ agent (self w) = agent (self w0)
  /\ session_locks (self w) = ∅.
Proof.
  intros w0 w.
  apply (turns_keep_fields Sample.uuid4 Sample.getenv_full Sample.AzureChatOpenAI
           Sample.create_react_agent 0 w).
  apply rtc_once. left. exists "hello", (Some "s1"). reflexivity.
Defined.

Lemma session_map_grows_witness :
  let w := snd (process_message Sample.uuid4 "hello" (Some "s1")
                  (Sample.configured Sample.failing)) in
  let w' := snd (process_message Sample.uuid4 "again" (Some "") w) in
  is_Some (session_ids (self w') !! "s1") /\ session_ids (self w') !! "" = None.
Proof.
  intros w w'.
  assert (Hstep : rtc (step Sample.uuid4) w w').
  { apply rtc_once. left. exists "again", (Some ""). reflexivity. }
  destruct (session_map_grows Sample.uuid4 w w' Hstep) as [Hkeys Hempty].
  split.
  - apply Hkeys. eexists. reflexivity.
  - apply Hempty. reflexivity.
Defined.

Lemma turn_without_session_witness :
  let w := Sample.configured Sample.echo in
  self (snd (process_message Sample.uuid4 "hello" (Some "") w)) = self w
  /\ draws (snd (process_message Sample.uuid4 "hello" (Some "") w)) = 1
  /\ invocations (trace (snd (process_message Sample.uuid4 "hello" (Some "") w)))
     = [("hello", "thread-0")].
Proof.
  intros w.
  apply (turn_without_session Sample.uuid4 w Sample.echo "hello" (Some "") eq_refl).
  right. reflexivity.
Defined.

Lemma thread_without_session_is_private_witness :
  let w0 := Sample.configured Sample.echo in
  let w1 := snd (resolve_thread Sample.uuid4 None w0) in
  let w2 := snd (process_message Sample.uuid4 "hello" (Some "s1") w1) in
  session_ids (self w2) !! "s1" = Some "thread-1" /\ "thread-1" <> "thread-0".
Proof.
  intros w0 w1 w2. split; [reflexivity|].
  apply (thread_without_session_is_private Sample.uuid4 sample_uuid4_inj
           w0 w0 None "thread-0" w1 w2 eq_refl (rtc_refl _ _)
           (or_introl eq_refl) eq_refl
           (rtc_once _ _ (or_introl (ex_intro _ "hello" (ex_intro _ (Some "s1") eq_refl))))
           "s1" "thread-1" eq_refl).
Defined.

Lemma session_turns_share_thread_witness :
  let w := Sample.configured Sample.failing in
  let w' := snd (process_message Sample.uuid4 "hello" (Some "s1") w) in
  let w2 := snd (process_message Sample.uuid4 "other" (Some "s2") w') in
  exists t,
    invocations (trace w') = invocations (trace w) ++ [("hello", t)]
    /\ invocations (trace (snd (process_message Sample.uuid4 "again" (Some "s1") w2)))
       = invocations (trace w2) ++ [("again", t)].
Proof.
  intros w w' w2.
  apply (session_turns_share_thread Sample.uuid4 sample_uuid4_inj sample_uuid4_nonempty
           w w Sample.failing "s1" "hello" "again" w2 eq_refl (rtc_refl _ _) eq_refl).
  - discriminate.
  - apply rtc_once. left. exists "other", (Some "s2"). reflexivity.
Defined.

Lemma init_swallows_exceptions_witness :
  fst (__init__ Sample.getenv_full Sample.no_credential Sample.create_react_agent 0)
    = Ok tt
  /\ agent (self (snd (__init__ Sample.getenv_full Sample.no_credential
                         Sample.create_react_agent 0))) = None
  /\ llm (self (snd (__init__ Sample.getenv_full Sample.AzureChatOpenAI
                       Sample.no_agent 0)))
     = Some ("https://example.openai.azure.com/", "gpt-4o")
  /\ agent (self (snd (__init__ Sample.getenv_full Sample.AzureChatOpenAI
                         Sample.no_agent 0))) = None.
Proof.
  destruct (init_swallows_exceptions Sample.getenv_full Sample.no_credential
              Sample.create_react_agent 0)
    as (Hret & _ & _ & Hfail).
  { intros ? ? e [= <-]. reflexivity. }
  { intros ? e [=]. }
  destruct (init_swallows_exceptions Sample.getenv_full Sample.AzureChatOpenAI
              Sample.no_agent 0)
    as (_ & _ & _ & Hfail2).
  { intros ? ? e [=]. }
  { intros ? e [= <-]. reflexivity. }
  split; [exact Hret|].
  split.
  - eapply (proj1 (Hfail eq_refl eq_refl)). reflexivity.
  - eapply (proj2 (Hfail2 eq_refl eq_refl)); reflexivity.
Defined.

End OrchestratorMore.

(** ** Overlapping turns *)

Module EventLoopMore.
Import Orchestrator EventLoop OrchestratorFacts EventLoopFacts.

Section More.
Context {E : Type} (uuid4 : nat -> string).
Implicit Types (w : World E) (pool : list (@Coroutine E)).


Lemma sched_sessions_ok
    (uuid4_fresh : forall n m, uuid4 n = uuid4 m -> n = m) pool w pool' w' :
  sched uuid4 (pool, w) (pool', w') ->
  sessions_ok uuid4 w -> sessions_ok uuid4 w'.
Proof.
  intros Hsched Hok. inversion Hsched; subst; [exact Hok | |].
  - match goal with H : start _ _ _ _ = _ |- _ => rename H into Hstart end.
    destruct (agent (self w)) as [g|] eqn:Hg.
    + destruct (resolve_ok uuid4 w session_id) as (t & w1 & Hr).
      rewrite (start_configured uuid4 w g message session_id t w1 Hg Hr) in Hstart.
      injection Hstart as <- <-.
      apply (sessions_ok_frame uuid4 w1); [reflexivity | reflexivity |].
      pose proof (resolve_preserves uuid4 uuid4_fresh w session_id Hok) as H1.
      rewrite Hr in H1. exact H1.
    + rewrite (start_unconfigured uuid4 w message session_id Hg) in Hstart.
      injection Hstart as <- <-. exact Hok.
  - match goal with H : resume _ _ = _ |- _ => rename H into Hresume end.
    destruct (resume_frame (set_engine e' w) outcome) as (Hself & Hdraws & _).
    rewrite Hresume in Hself, Hdraws.
    exact (sessions_ok_frame uuid4 w w' Hself Hdraws Hok).
Qed.

Lemma run_sessions_ok
    (uuid4_fresh : forall n m, uuid4 n = uuid4 m -> n = m)
    (x y : list (@Coroutine E) * World E) :
  rtc (sched uuid4) x y ->
  sessions_ok uuid4 (snd x) -> sessions_ok uuid4 (snd y).
Proof.
  induction 1 as [|[p1 w1] [p2 w2] z Hstep _ IH]; [intros Hok; exact Hok|].
  intros Hok. apply IH. exact (sched_sessions_ok uuid4_fresh _ _ _ _ Hstep Hok).
Qed.

(** Overlapping requests of different sessions never share a thread:
    however the turns interleave from an empty session map, with [uuid4]
    never handing out the same identifier twice and none empty, two
    requests at their [await] for two distinct sessions that are not empty
    hold distinct thread identifiers. *)
Theorem sessions_never_share_a_thread
    (uuid4_fresh : forall n m, uuid4 n = uuid4 m -> n = m)
    (uuid4_nonempty : forall n, uuid4 n <> "")
    pool0 w0 pool w s1 s2 c1 c2 t1 t2 :
  session_ids (self w0) = ∅ ->
  Forall (fun c => forall sid, awaits sid c = None) pool0 ->
  rtc (sched uuid4) (pool0, w0) (pool, w) ->
  s1 <> "" -> s2 <> "" -> s1 <> s2 ->
  c1 ∈ pool -> c2 ∈ pool ->
  awaits s1 c1 = Some t1 -> awaits s2 c2 = Some t2 ->
  t1 <> t2.
Proof.
  intros Hempty Hpool0 Hrun Hs1 Hs2 Hne Hc1 Hc2 H1 H2 Heq. subst t2.
  assert (Hheld : forall s c t, s <> "" -> c ∈ pool -> awaits s c = Some t ->
                    session_ids (self w) !! s = Some t).
  { intros s c t Hs Hc Hawaits.
    assert (Hset : settled s (trace w0) pool w).
    { apply (run_preserves uuid4 uuid4_nonempty s (trace w0) (pool0, w0) (pool, w)
               Hs Hrun).
      simpl. exists []. split; [symmetry; apply app_nil_r|].
      left. split; [rewrite Hempty; apply lookup_empty|]. split; [reflexivity|].
      eapply Forall_impl; [exact Hpool0|]. intros c0 Hc0. apply Hc0. }
    destruct Hset as (new & _ & [(_ & _ & Hnone) | (t0 & _ & Hl & _ & Hsome)]).
    - rewrite Forall_forall in Hnone. rewrite (Hnone c Hc) in Hawaits. discriminate.
    - rewrite Forall_forall in Hsome. destruct (Hsome c Hc) as [H | H]; congruence. }
  pose proof (run_sessions_ok uuid4_fresh (pool0, w0) (pool, w) Hrun
                (sessions_ok_empty uuid4 w0 Hempty)) as Hok.
  apply Hne. apply (proj2 Hok s1 s2 t1).
  - exact (Hheld s1 c1 t1 Hs1 Hc1 H1).
  - exact (Hheld s2 c2 t1 Hs2 Hc2 H2).
Qed.

End More.

(** Two requests of two sessions, both run to their [await]. *)
Lemma two_sessions_start :
  rtc (sched Sample.uuid4)
    ([Created "a" (Some "s1"); Created "b" (Some "s2")],
     Sample.configured Sample.echo)
    ([Suspended Sample.echo "a" (Some "s1") "thread-0";
      Suspended Sample.echo "b" (Some "s2") "thread-1"],
     snd (start Sample.uuid4 "b" (Some "s2")
            (snd (start Sample.uuid4 "a" (Some "s1") (Sample.configured Sample.echo))))).
Proof.
  apply (rtc_l _ _ ([Suspended Sample.echo "a" (Some "s1") "thread-0";
                     Created "b" (Some "s2")],
                    snd (start Sample.uuid4 "a" (Some "s1")
                           (Sample.configured Sample.echo)))).
  { apply (sched_start Sample.uuid4
             [Created "a" (Some "s1"); Created "b" (Some "s2")]
             (Sample.configured Sample.echo) 0 "a" (Some "s1")); reflexivity. }
  apply rtc_once.
  apply (sched_start Sample.uuid4
           [Suspended Sample.echo "a" (Some "s1") "thread-0"; Created "b" (Some "s2")]
           (snd (start Sample.uuid4 "a" (Some "s1") (Sample.configured Sample.echo)))
           1 "b" (Some "s2")); reflexivity.
Qed.

Lemma sessions_never_share_a_thread_witness :
  awaits "s1" (Suspended Sample.echo "a" (Some "s1") "thread-0") = Some "thread-0"
  /\ awaits "s2" (Suspended Sample.echo "b" (Some "s2") "thread-1") = Some "thread-1"
  /\ "thread-0" <> "thread-1".
Proof.
  split; [reflexivity|]. split; [reflexivity|].
  apply (sessions_never_share_a_thread Sample.uuid4
           sample_uuid4_inj sample_uuid4_nonempty
           [Created "a" (Some "s1"); Created "b" (Some "s2")]
           (Sample.configured Sample.echo) _ _ "s1" "s2"
           (Suspended Sample.echo "a" (Some "s1") "thread-0")
           (Suspended Sample.echo "b" (Some "s2") "thread-1")
           "thread-0" "thread-1" eq_refl
           ltac:(repeat constructor) two_sessions_start
           ltac:(discriminate) ltac:(discriminate) ltac:(discriminate)
           ltac:(apply list_elem_of_here)
           ltac:(apply list_elem_of_further, list_elem_of_here)
           eq_refl eq_refl).
Defined.

End EventLoopMore.

(** ** Tool catalog *)

Module ToolMore.
Import TaskStore.

Lemma append_cons (c : ascii) (a b : string) :
  String c a +:+ b = String c (a +:+ b).
Proof. reflexivity. Qed.

Lemma append_assoc (a b c : string) : (a +:+ b) +:+ c = a +:+ (b +:+ c).
Proof.
  induction a as [|x a IH]; [reflexivity|].
  rewrite !append_cons, IH. reflexivity.
Qed.

Lemma has_newline_app (a b : string) :
  has_newline (a +:+ b) = has_newline a || has_newline b.
Proof.
  induction a as [|c a IH]; [reflexivity|].
  rewrite append_cons. simpl. rewrite IH. apply orb_assoc.
Qed.

Lemma split_lines_clean (a : string) :
  has_newline a = false -> split_lines a = [a].
Proof.
  induction a as [|c a IH]; [reflexivity|].
  simpl. destruct (Ascii.eqb c "010"); [discriminate|].
  simpl. intros Ha. rewrite (IH Ha). reflexivity.
Qed.

(** A text without newline, a newline and a rest: the text is the first
    line. *)
Lemma split_lines_app (a b : string) :
  has_newline a = false ->
  split_lines (a +:+ newline +:+ b) = a :: split_lines b.
Proof.
  induction a as [|c a IH]; [reflexivity|].
  rewrite append_cons. simpl. destruct (Ascii.eqb c "010"); [discriminate|].
  simpl. intros Ha. rewrite (IH Ha). reflexivity.
Qed.

(** Joining lines with newlines and splitting the text gives the lines. *)
Lemma split_lines_join (lines : list string) :
  lines <> [] ->
  Forall (fun l => has_newline l = false) lines ->
  split_lines (join newline lines) = lines.
Proof.
  induction 2 as [|l lines Hl Hlines IH]; [contradiction|].
  destruct lines as [|l' lines].
  - simpl. apply split_lines_clean. exact Hl.
  - change (join newline (l :: l' :: lines))
      with (l +:+ newline +:+ join newline (l' :: lines)).
    rewrite (split_lines_app _ _ Hl). f_equal. apply IH. discriminate.
Qed.

Lemma digits_no_newline (d : Decimal.uint) :
  has_newline (NilEmpty.string_of_uint d) = false.
Proof. induction d; simpl; assumption || reflexivity. Qed.

(** The decimal writing of an integer holds no newline. *)
Lemma str_int_no_newline (n : Z) : has_newline (str_int n) = false.
Proof.
  unfold str_int, NilZero.string_of_int, NilZero.string_of_uint.
  destruct (Z.to_int n) as [d|d]; destruct d; simpl;
    try reflexivity; apply digits_no_newline.
Qed.

Lemma task_line_no_newline (t : Task) :
  has_newline (title t) = false -> has_newline (Tools.task_line t) = false.
Proof.
  intros Ht. unfold Tools.task_line, Tools.status_text.
  rewrite !has_newline_app, str_int_no_newline, Ht.
  destruct (isComplete t); reflexivity.
Qed.

(** The listing of [getTasks] can be read back line by line: on a store
    that holds tasks, none with a newline in its title, the text splits at
    its newlines into the line ["Found <n> tasks:"], [n] being the number
    of tasks, followed by one line for each task, in the order of the
    store; the store is left as it was. *)
Theorem get_tasks_one_line_per_task (s : TaskService) :
  tasks s <> [] ->
  Forall (fun t => has_newline (title t) = false) (tasks s) ->
  exists text,
    Tools.get_tasks s = (Ok text, s)
    /\ split_lines text
       = ("Found " +:+ str_int (Z.of_nat (length (tasks s))) +:+ " tasks:")
           :: map Tools.task_line (tasks s)
    /\ length (split_lines text) = S (length (tasks s)).
Proof.
  intros Hsome Hclean.
  unfold Tools.get_tasks, get_all_tasks, mbind, StErr_bind.
  destruct (tasks s) as [|t ts] eqn:Hts; [contradiction|].
  eexists. split; [reflexivity|].
  assert (Hsplit :
    split_lines
      ("Found " +:+ str_int (Z.of_nat (length (t :: ts))) +:+ " tasks:" +:+ newline
         +:+ join newline (map Tools.task_line (t :: ts)))
    = ("Found " +:+ str_int (Z.of_nat (length (t :: ts))) +:+ " tasks:")
        :: map Tools.task_line (t :: ts)).
  { assert (Hhead : has_newline
                      ("Found " +:+ str_int (Z.of_nat (length (t :: ts))) +:+ " tasks:")
                    = false).
    { rewrite !has_newline_app, str_int_no_newline. reflexivity. }
    rewrite <- (split_lines_join (map Tools.task_line (t :: ts))) at 2.
    - rewrite <- (split_lines_app _ _ Hhead).
      rewrite !append_assoc. reflexivity.
    - discriminate.
    - apply Forall_map. eapply Forall_impl; [exact Hclean|].
      intros t0. apply task_line_no_newline. }
  split.
  - exact Hsplit.
  - transitivity (length (("Found " +:+ str_int (Z.of_nat (length (t :: ts))) +:+ " tasks:")
                            :: map Tools.task_line (t :: ts))).
    + f_equal. exact Hsplit.
    + simpl. rewrite length_map. reflexivity.
Qed.

Lemma get_tasks_one_line_per_task_witness :
  exists text,
    Tools.get_tasks Sample.two_tasks = (Ok text, Sample.two_tasks)
    /\ split_lines text
       = ["Found 2 tasks:"; "- 1: buy milk (Incomplete)"; "- 2: write report (Complete)"].
Proof.
  destruct (get_tasks_one_line_per_task Sample.two_tasks)
    as (text & Hrun & Hlines & _).
  - discriminate.
  - repeat constructor.
  - exists text. split; [exact Hrun | exact Hlines].
Defined.

End ToolMore.
